(** * Commodity sentiment dashboard: the data orchestration layer

    A shallow embedding of the two source files of the dashboard:

    - [services/gemini.ts]  : module [Gemini]  (the inference call wrapper
      [getCommoditySentiment], its result shape and sources extraction);
    - the [App] component    : module [App]     (the React state cells,
      [fetchSentiment], the prefetch effect, the background refresh
      interval and the click handlers).

    React state cells are fields of one record, each [setX] is a function on
    that record.  An [async] function is split at its [await] into the part
    that runs at the call and the part that runs when the awaited promise
    settles; the suspended calls live in a task table and the JavaScript
    event loop is the deterministic function [App.step] over the events a
    browser can deliver (clicks, interval ticks, promise settlements). *)

From Stdlib Require Import QArith Lqa.
From stdpp Require Import base numbers option list strings pretty gmap.

Local Close Scope Q_scope.
#[local] Set Warnings "-register-all".

Local Open Scope string_scope.
Local Open Scope list_scope.

(* ===================================================================== *)
(** * JavaScript values                                                   *)
(* ===================================================================== *)

Module Js.

(** The values [JSON.parse] can produce.  A JSON number is a finite
    binary64 value, hence a rational; the program never computes with
    one, it only stores and compares them.  An object is the list of its
    own properties, where a property shadows later ones of the same
    name. *)
Inductive json : Type :=
| JNull
| JBool (b : bool)
| JNumber (q : Q)
| JString (s : string)
| JArray (xs : list json)
| JObject (props : list (string * json)).

(** [o[k]] on the own properties of an object. *)
Fixpoint obj_get (k : string) (o : list (string * json)) : option json :=
  match o with
  | [] => None
  | (k', v) :: o' => if decide (k = k') then Some v else obj_get k o'
  end.

(** The object literal [{ ...o, k: v }] (also [{ ...o, [k]: v }]). *)
Definition obj_set (k : string) (v : json) (o : list (string * json))
  : list (string * json) :=
  (k, v) :: o.

(** The own enumerable properties that [{ ...v }] copies: those of an
    object, the indices of an array, the indices of a string; nothing for
    [null], booleans and numbers.  A string here is a sequence of bytes, so
    the indices of a string are those of JavaScript for ASCII text; a
    character outside ASCII takes one or two indices in JavaScript and two
    to four here. *)
Definition ownProps (v : json) : list (string * json) :=
  match v with
  | JObject props => props
  | JArray xs => imap (fun i x => (pretty i, x)) xs
  | JString s =>
      imap (fun i ch => (pretty i, JString (String ch EmptyString)))
           (String.list_ascii_of_string s)
  | _ => []
  end.

(** A thrown value: an [Error]-like object, whose [message] is a string
    or is undefined. *)
Record JsError : Type := mkError { message : option string }.

(** [s.includes(needle)] *)
Fixpoint includes (needle s : string) : bool :=
  String.prefix needle s ||
  match s with
  | EmptyString => false
  | String _ s' => includes needle s'
  end.

(** [err.message?.includes(needle)], used as a condition: undefined is
    falsy. *)
Definition message_includes (err : JsError) (needle : string) : bool :=
  match message err with
  | Some m => includes needle m
  | None => false
  end.

(** [`${x}`] for a string-or-undefined [x]. *)
Definition template_of (x : option string) : string :=
  match x with
  | Some s => s
  | None => "undefined"
  end.

(** [x || d] for a string-or-undefined [x]: undefined and the empty
    string are falsy. *)
Definition or_default (x : option string) (d : string) : string :=
  match x with
  | Some s => if decide (s = "") then d else s
  | None => d
  end.

(** Optional chaining [x?.f] where [f] itself may be undefined: undefined
    when [x] is. *)
Definition chain {A B : Type} (x : option A) (f : A → option B) : option B :=
  match x with
  | Some a => f a
  | None => None
  end.

End Js.

(* ===================================================================== *)
(** * services/gemini.ts                                                  *)
(* ===================================================================== *)

Module Gemini.
Import Js.

(** ['India' | 'Global'] *)
Inductive Context : Type := India | Global.

#[global] Instance Context_eq_dec : EqDecision Context.
Proof. solve_decision. Defined.

(** The string a context is at run time. *)
Definition Context_str (c : Context) : string :=
  match c with
  | India => "India"
  | Global => "Global"
  end.

(** The part of the SDK's response that the function reads.  Every
    optional field is an [option]; [groundingChunks] and [candidates] are
    arrays. *)
Record Web : Type := mkWeb { web_title : option string; web_uri : option string }.
Record GroundingChunk : Type := mkChunk { web : option Web }.
Record GroundingMetadata : Type :=
  mkMetadata { groundingChunks : option (list GroundingChunk) }.
Record Candidate : Type :=
  mkCandidate { groundingMetadata : option GroundingMetadata }.

(** [response.text] is only ever handed to [JSON.parse], after the
    [|| "{}"] fallback.  It is represented by what the platform's parser
    makes of it: no text (undefined or empty, so falsy), a text the parser
    accepts together with the value it yields, or a text the parser
    rejects together with the message of the [SyntaxError]. *)
Inductive ResponseText : Type :=
| NoText
| JsonText (v : json)
| BadText (msg : string).

Record GenerateContentResponse : Type := mkResponse {
  text : ResponseText;
  candidates : option (list Candidate)
}.

(** [JSON.parse(response.text || "{}")]; [JSON.parse("{}")] is the empty
    object. *)
Definition parse_text (t : ResponseText) : JsError + json :=
  match t with
  | NoText => inr (JObject [])
  | JsonText v => inr v
  | BadText msg => inl (mkError (Some msg))
  end.

(** [{ title: string; url: string }] *)
Record Source : Type := mkSource { title : string; url : string }.

Definition Source_json (s : Source) : json :=
  JObject [("title", JString (title s)); ("url", JString (url s))].

(** [chunk => ({ title: chunk.web?.title || "Source",
                 url: chunk.web?.uri || "#" })] *)
Definition chunk_source (chunk : GroundingChunk) : Source :=
  {| title := or_default (chain (web chunk) web_title) "Source";
     url := or_default (chain (web chunk) web_uri) "#" |}.

(** [response.candidates?.[0]?.groundingMetadata?.groundingChunks
      ?.map(...) || []]: an array, even an empty one, is truthy. *)
Definition extract_sources (response : GenerateContentResponse) : list Source :=
  let first := chain (candidates response) head in
  let chunks := chain (chain first groundingMetadata) groundingChunks in
  match chunks with
  | Some chunks => map chunk_source chunks
  | None => []
  end.

(** [getCommoditySentiment], from the point where the awaited
    [ai.models.generateContent] settles with [reply]: a rejection is
    rethrown by the [await], a response is parsed, its sources are
    extracted and [{ ...data, sources }] is returned.  The two arguments
    only enter the prompt; what the service does with the prompt is the
    [reply]. *)
Definition getCommoditySentiment (commodity : string) (context : Context)
    (reply : JsError + GenerateContentResponse)
  : JsError + list (string * json) :=
  match reply with
  | inl err => inl err
  | inr response =>
      match parse_text (text response) with
      | inl err => inl err
      | inr data =>
          let sources := extract_sources response in
          inr (obj_set "sources" (JArray (map Source_json sources))
                       (ownProps data))
      end
  end.

(** Reading the typed fields of a result, as the presentation layer does
    ([data.historical], [data.current.score], ...). *)
Definition horizon_score (name : string) (result : list (string * json))
  : option Q :=
  match obj_get name result with
  | Some (JObject h) =>
      match obj_get "score" h with
      | Some (JNumber q) => Some q
      | _ => None
      end
  | _ => None
  end.



(** A horizon record and a response object of the shape the response
    schema asks for, to state and try properties on. *)
Definition horizon (score : Q) (label summary : string) : json :=
  JObject [("score", JNumber score); ("label", JString label);
           ("summary", JString summary)].

Definition sample_data (h c l : Q) : json :=
  JObject [("historical", horizon h "Firm" "Prices held.");
           ("current", horizon c "Bullish" "Demand is up.");
           ("longTerm", horizon l "Neutral" "Crop outlook is mixed.");
           ("drivers", JArray [])].

End Gemini.

(* ===================================================================== *)
(** * The App component                                                   *)
(* ===================================================================== *)

Module App.
Import Js Gemini.

(** What a cache slot holds at run time: the object
    [getCommoditySentiment] returned. *)
Abbreviation SentimentData := (list (string * json)).

Definition COMMODITIES : list string :=
  ["Wheat"; "Cashew"; "Maize"; "Chana"; "Sugar"].

(** The seven [useState] cells, with their initial values in
    [initialState]. *)
Record AppState : Type := mkState {
  context : Context;
  selectedCommodity : option string;
  loading : bool;
  sentimentData : gmap string SentimentData;
  error : option string;
  expandedDriver : option nat;
  refreshIndex : nat
}.

Definition initialState : AppState :=
  {| context := India; selectedCommodity := None; loading := false;
     sentimentData := ∅; error := None; expandedDriver := None;
     refreshIndex := 0 |}.

Definition setContext (v : Context) (s : AppState) : AppState :=
  {| context := v; selectedCommodity := selectedCommodity s;
     loading := loading s; sentimentData := sentimentData s;
     error := error s; expandedDriver := expandedDriver s;
     refreshIndex := refreshIndex s |}.

Definition setSelectedCommodity (v : option string) (s : AppState) : AppState :=
  {| context := context s; selectedCommodity := v;
     loading := loading s; sentimentData := sentimentData s;
     error := error s; expandedDriver := expandedDriver s;
     refreshIndex := refreshIndex s |}.

Definition setLoading (v : bool) (s : AppState) : AppState :=
  {| context := context s; selectedCommodity := selectedCommodity s;
     loading := v; sentimentData := sentimentData s;
     error := error s; expandedDriver := expandedDriver s;
     refreshIndex := refreshIndex s |}.

(** [setSentimentData(prev => f(prev))]: the updater form, applied to the
    cell's value at the time the update runs. *)
Definition setSentimentData
    (f : gmap string SentimentData → gmap string SentimentData)
    (s : AppState) : AppState :=
  {| context := context s; selectedCommodity := selectedCommodity s;
     loading := loading s; sentimentData := f (sentimentData s);
     error := error s; expandedDriver := expandedDriver s;
     refreshIndex := refreshIndex s |}.

Definition setError (v : option string) (s : AppState) : AppState :=
  {| context := context s; selectedCommodity := selectedCommodity s;
     loading := loading s; sentimentData := sentimentData s;
     error := v; expandedDriver := expandedDriver s;
     refreshIndex := refreshIndex s |}.

Definition setExpandedDriver (v : option nat) (s : AppState) : AppState :=
  {| context := context s; selectedCommodity := selectedCommodity s;
     loading := loading s; sentimentData := sentimentData s;
     error := error s; expandedDriver := v;
     refreshIndex := refreshIndex s |}.

Definition setRefreshIndex (v : nat) (s : AppState) : AppState :=
  {| context := context s; selectedCommodity := selectedCommodity s;
     loading := loading s; sentimentData := sentimentData s;
     error := error s; expandedDriver := expandedDriver s;
     refreshIndex := v |}.

(** [`${commodity}-${ctx}`] *)
Definition cacheKey (commodity : string) (ctx : Context) : string :=
  commodity +:+ "-" +:+ Context_str ctx.

(** ** fetchSentiment *)

(** The message computed in the [catch] block.  The initial value of
    [message] is overwritten on every path of the if-chain. *)
Definition errorMessage (err : JsError) : string :=
  if message_includes err "API_KEY" then
    "Gemini API Key is missing or invalid."
  else if message_includes err "network" || message_includes err "fetch" then
    "Network error: Unable to reach the AI service."
  else if message_includes err "429" then
    "Rate limit exceeded. Please wait."
  else
    "Error: " +:+ template_of (message err).

(** The statements before the [await]. *)
Definition fetchSentiment_begin (isPrefetch : bool) (s : AppState) : AppState :=
  let s := if negb isPrefetch then setLoading true s else s in
  setError None s.

(** The rest of the body, run when [getCommoditySentiment] settles with
    [r]: the [try] continuation or the [catch] block, then [finally]. *)
Definition fetchSentiment_resume (commodity : string) (ctx : Context)
    (isPrefetch : bool) (r : JsError + SentimentData) (s : AppState)
  : AppState :=
  let s :=
    match r with
    | inr data =>
        setSentimentData (fun prev => <[cacheKey commodity ctx := data]> prev) s
    | inl err =>
        if negb isPrefetch then setError (Some (errorMessage err)) s else s
    end in
  if negb isPrefetch then setLoading false s else s.

(** [currentData] *)
Definition currentData (s : AppState) : option SentimentData :=
  match selectedCommodity s with
  | Some c => sentimentData s !! cacheKey c (context s)
  | None => None
  end.

(** ** The event loop *)

(** A call suspended at an [await]. *)
Inductive Task : Type :=
| Fetching (commodity : string) (ctx : Context) (isPrefetch : bool)
    (** [fetchSentiment(commodity, ctx, isPrefetch)], called from a
        handler or from the interval, waiting for
        [getCommoditySentiment] *)
| Warming (ctx : Context) (commodity : string) (rest : list string).
    (** [initialFetch] of the effect run under [ctx], waiting for
        [fetchSentiment(commodity, ctx, true)], with [rest] still to
        iterate *)

(** What an observer of the inference service sees: a call to
    [getCommoditySentiment] being issued by a task, and its promise
    settling. *)
Inductive Obs : Type :=
| Issued (task : nat) (commodity : string) (ctx : Context) (isPrefetch : bool)
| Settled (task : nat) (commodity : string) (ctx : Context)
    (isPrefetch : bool) (ok : bool).

(** The component: its state cells and the table of suspended calls.  A
    finished call leaves [None] in its slot, so the index of a call never
    changes. *)
Record Machine : Type := mkMachine {
  ui : AppState;
  tasks : list (option Task)
}.

Definition is_ok {E A : Type} (r : E + A) : bool :=
  match r with inr _ => true | inl _ => false end.

(** A handler calls [fetchSentiment(commodity, ctx, isPrefetch)] without
    awaiting it. *)
Definition call_fetchSentiment (commodity : string) (ctx : Context)
    (isPrefetch : bool) (m : Machine) : Machine * list Obs :=
  ({| ui := fetchSentiment_begin isPrefetch (ui m);
      tasks := tasks m ++ [Some (Fetching commodity ctx isPrefetch)] |},
   [Issued (length (tasks m)) commodity ctx isPrefetch]).

(** [for (const commodity of cs) await fetchSentiment(commodity, ctx, true)]
    in task slot [i], run from the head of the remaining iterations [cs]
    up to its next [await]. *)
Definition initialFetch_loop (ctx : Context) (cs : list string) (i : nat)
    (m : Machine) : Machine * list Obs :=
  match cs with
  | [] => ({| ui := ui m; tasks := <[i := None]> (tasks m) |}, [])
  | c :: rest =>
      ({| ui := fetchSentiment_begin true (ui m);
          tasks := <[i := Some (Warming ctx c rest)]> (tasks m) |},
       [Issued i c ctx true])
  end.

(** The first effect: [initialFetch()] under the context of the render
    that ran the effect. *)
Definition initialFetch (m : Machine) : Machine * list Obs :=
  initialFetch_loop (context (ui m)) COMMODITIES (length (tasks m))
    {| ui := ui m; tasks := tasks m ++ [None] |}.

(** The interval callback of the second effect.  The effect depends on
    [refreshIndex] and [context], so the callback in force reads the
    current values of both. *)
Definition nextIndex (refreshIndex : nat) : nat :=
  (refreshIndex + 1) mod length COMMODITIES.

Definition tick (m : Machine) : Machine * list Obs :=
  let nextIndex := nextIndex (refreshIndex (ui m)) in
  let m := {| ui := setRefreshIndex nextIndex (ui m); tasks := tasks m |} in
  call_fetchSentiment (template_of (COMMODITIES !! nextIndex))
    (context (ui m)) true m.

(** [handleCommodityClick].  An entry of the cache is an object, hence
    truthy: [!sentimentData[key]] holds exactly when the key is absent. *)
Definition handleCommodityClick (commodity : string) (m : Machine)
  : Machine * list Obs :=
  let s := setExpandedDriver None
             (setSelectedCommodity (Some commodity) (ui m)) in
  let m' := {| ui := s; tasks := tasks m |} in
  match sentimentData (ui m) !! cacheKey commodity (context (ui m)) with
  | None => call_fetchSentiment commodity (context (ui m)) false m'
  | Some _ => (m', [])
  end.

(** The events the browser delivers to the component. *)
Inductive Event : Type :=
| ClickCommodity (commodity : string)
    (** a commodity card: [handleCommodityClick(commodity)] *)
| ClickContext (ctx : Context)
    (** a context button: [setContext(ctx)] *)
| ClickBack
    (** [setSelectedCommodity(null)] *)
| ClickRetry
    (** [fetchSentiment(selectedCommodity, context)] *)
| ClickDriver (idx : nat)
    (** [setExpandedDriver(expandedDriver === idx ? null : idx)] *)
| Tick
    (** the 45 s interval fires *)
| Settle (i : nat) (reply : JsError + GenerateContentResponse).
    (** the inference call awaited by task [i] settles with [reply] *)

(** One turn of the event loop.  Handlers are run whether or not the
    presentation layer currently shows their button, so the runs of
    [step] include every run of the component.  The markup is not part of
    [step]: when evaluating it throws, the real component is unmounted and
    takes no further event, so a run of the component is a run of [step]
    cut at that point.  Setting [context] to the
    value it has does not re-render, so no effect runs; a change re-runs
    both effects: [initialFetch] starts again and the interval is set up
    again. *)
Definition step (e : Event) (m : Machine) : Machine * list Obs :=
  match e with
  | ClickCommodity commodity => handleCommodityClick commodity m
  | ClickContext ctx =>
      if decide (ctx = context (ui m)) then (m, [])
      else initialFetch {| ui := setContext ctx (ui m); tasks := tasks m |}
  | ClickBack =>
      ({| ui := setSelectedCommodity None (ui m); tasks := tasks m |}, [])
  | ClickRetry =>
      match selectedCommodity (ui m) with
      | Some commodity => call_fetchSentiment commodity (context (ui m)) false m
      | None => (m, [])
      end
  | ClickDriver idx =>
      let v := if decide (expandedDriver (ui m) = Some idx) then None
               else Some idx in
      ({| ui := setExpandedDriver v (ui m); tasks := tasks m |}, [])
  | Tick => tick m
  | Settle i reply =>
      match tasks m !! i with
      | Some (Some (Fetching commodity ctx isPrefetch)) =>
          let r := getCommoditySentiment commodity ctx reply in
          ({| ui := fetchSentiment_resume commodity ctx isPrefetch r (ui m);
              tasks := <[i := None]> (tasks m) |},
           [Settled i commodity ctx isPrefetch (is_ok r)])
      | Some (Some (Warming ctx commodity rest)) =>
          let r := getCommoditySentiment commodity ctx reply in
          let m1 := {| ui := fetchSentiment_resume commodity ctx true r (ui m);
                       tasks := tasks m |} in
          let '(m2, obs) := initialFetch_loop ctx rest i m1 in
          (m2, Settled i commodity ctx true (is_ok r) :: obs)
      | _ => (m, [])
      end
  end.

(** A run: the events in the order delivered, the observations in the
    order made. *)
Fixpoint run (es : list Event) (m : Machine) : Machine * list Obs :=
  match es with
  | [] => (m, [])
  | e :: es' =>
      let '(m1, obs1) := step e m in
      let '(m2, obs2) := run es' m1 in
      (m2, obs1 ++ obs2)
  end.

(** The component after its first render has run its effects. *)
Definition mount : Machine * list Obs :=
  initialFetch {| ui := initialState; tasks := [] |}.

(** ** Vocabulary of the design, for the statements below *)

(** The closed error taxonomy of the design. *)
Inductive ErrorClass : Type :=
| AuthError | NetworkError | RateLimitError | UnclassifiedError.

(** The class of a failure, by the signals the design names: a credential
    signal, else a transport signal, else a throttling signal, else
    unclassified. *)
Definition classify (err : JsError) : ErrorClass :=
  if message_includes err "API_KEY" then AuthError
  else if message_includes err "network" || message_includes err "fetch"
  then NetworkError
  else if message_includes err "429" then RateLimitError
  else UnclassifiedError.

(** The user-facing message of a class; only the unclassified one carries
    the raw [detail] of the failure. *)
Definition class_message (c : ErrorClass) (detail : string) : string :=
  match c with
  | AuthError => "Gemini API Key is missing or invalid."
  | NetworkError => "Network error: Unable to reach the AI service."
  | RateLimitError => "Rate limit exceeded. Please wait."
  | UnclassifiedError => "Error: " +:+ detail
  end.

(** The inference call a suspended task is waiting for. *)
Definition task_dispatch (t : Task) : string * Context * bool :=
  match t with
  | Fetching commodity ctx isPrefetch => (commodity, ctx, isPrefetch)
  | Warming ctx commodity _ => (commodity, ctx, true)
  end.

(** The subjects of the calls issued, in order. *)
Definition issued_commodities (obs : list Obs) : list string :=
  omap (fun o => match o with
                 | Issued _ c _ _ => Some c
                 | Settled _ _ _ _ _ => None
                 end) obs.

Definition obs_isPrefetch (o : Obs) : bool :=
  match o with
  | Issued _ _ _ p => p
  | Settled _ _ _ p _ => p
  end.

(** The task an observation belongs to. *)
Definition obs_task (o : Obs) : nat :=
  match o with
  | Issued i _ _ _ => i
  | Settled i _ _ _ _ => i
  end.

(** Whether an event is a settlement of task [i]. *)
Definition settles (i : nat) (e : Event) : bool :=
  match e with
  | Settle j _ => bool_decide (j = i)
  | _ => false
  end.

(** The settlements of task [i], each preceded by a stretch of other
    events. *)
Definition interleaved (i : nat)
    (segs : list (list Event * (JsError + GenerateContentResponse)))
  : list Event :=
  flat_map (fun sr => sr.1 ++ [Settle i sr.2]) segs.

(** What a strictly sequential warm-up by task [i] looks like from the
    service: for each subject in turn, a non-foreground call is issued and
    settles before anything else happens. *)
Fixpoint sequential_trace (i : nat) (ctx : Context) (cs : list string)
    (replies : list (JsError + GenerateContentResponse)) : list Obs :=
  match cs, replies with
  | c :: cs', r :: replies' =>
      Issued i c ctx true
      :: Settled i c ctx true (is_ok (getCommoditySentiment c ctx r))
      :: sequential_trace i ctx cs' replies'
  | _, _ => []
  end.

End App.

(* ===================================================================== *)
(** * The read side: what the markup computes from the state              *)
(* ===================================================================== *)

Module Views.
Import Js Gemini App.

(** Reading a property of [undefined] or [null] throws a [TypeError]. *)
Inductive Thrown : Type := TypeError.

(** [v === undefined || v === null], the test behind [?.] and [??]. *)
Definition nullish (v : option json) : bool :=
  match v with
  | None | Some JNull => true
  | Some _ => false
  end.

(** [v.field] for a field that is no built-in member of arrays, strings,
    numbers or booleans (as [score] and [label] are not): a [TypeError] on
    undefined and null, else the own property or undefined. *)
Definition read_field (field : string) (v : option json)
  : Thrown + option json :=
  match v with
  | None | Some JNull => inl TypeError
  | Some v' => inr (obj_get field (ownProps v'))
  end.

(** [x > y] and [x < y] on numbers. *)
Definition gt (x y : Q) : bool := negb (Qle_bool x y).
Definition lt (x y : Q) : bool := negb (Qle_bool y x).

(** The placeholder score of the ticker:
    [name === 'Wheat' ? 72 : name === 'Sugar' ? 12 : name === 'Chana' ? -45
     : name === 'Maize' ? 58 : 0]. *)
Definition placeholderScore (name : string) : Q :=
  if decide (name = "Wheat") then 72%Q
  else if decide (name = "Sugar") then 12%Q
  else if decide (name = "Chana") then (-45)%Q
  else if decide (name = "Maize") then 58%Q
  else 0%Q.

(** The ticker's [score]:
    [data?.current.score ?? placeholder], with
    [data = sentimentData[`${name}-${context}`]].  A cache entry is an
    object, so [data?.] short-circuits only on a missing entry. *)
Definition tickerScore (s : AppState) (name : string) : Thrown + json :=
  match sentimentData s !! cacheKey name (context s) with
  | None => inr (JNumber (placeholderScore name))
  | Some data =>
      match read_field "score" (obj_get "current" data) with
      | inl e => inl e
      | inr v =>
          inr (match v with
               | None | Some JNull => JNumber (placeholderScore name)
               | Some v' => v'
               end)
      end
  end.

(** The [score] prop of a commodity card:
    [sentimentData[`${commodity}-${context}`]?.current.score]. *)
Definition cardScore (s : AppState) (commodity : string)
  : Thrown + option json :=
  match sentimentData s !! cacheKey commodity (context s) with
  | None => inr None
  | Some data => read_field "score" (obj_get "current" data)
  end.

(** The ticker evaluates its items for every tracked commodity, in
    order; the first throw aborts the render. *)
Fixpoint tickerScores (s : AppState) (names : list string)
  : Thrown + list json :=
  match names with
  | [] => inr []
  | name :: names' =>
      match tickerScore s name with
      | inl e => inl e
      | inr v =>
          match tickerScores s names' with
          | inl e => inl e
          | inr vs => inr (v :: vs)
          end
      end
  end.

(** The ticker's fallback label, for a numeric score:
    [score > 20 ? 'Bullish' : score < -20 ? 'Bearish' : 'Neutral']. *)
Definition fallbackLabel (score : Q) : string :=
  if gt score 20 then "Bullish"
  else if lt score (-20) then "Bearish"
  else "Neutral".

(** The ticker's [colorClass], for a numeric score. *)
Definition colorClass (score : Q) : string :=
  if gt score 20 then "bg-emerald-500"
  else if lt score (-20) then "bg-red-500"
  else "bg-amber-500".

(** The class of the score badge of [CommodityCard]. *)
Definition badgeClass (score : Q) : string :=
  if gt score 20 then "bg-emerald-500 text-white"
  else if lt score (-20) then "bg-red-500 text-white"
  else "bg-amber-500 text-white".

(** [getColor] of [SentimentMeter]. *)
Definition getColor (s : Q) : string :=
  if lt s (-50) then "#ef4444"
  else if lt s (-10) then "#f87171"
  else if Qle_bool s 10 then "#94a3b8"
  else if Qle_bool s 50 then "#4ade80"
  else "#22c55e".

(** The gauge colours from the bearish end to the bullish end, and the
    colour opposite to a colour on that scale. *)
Definition colorRank (c : string) : nat :=
  if decide (c = "#ef4444") then 0
  else if decide (c = "#f87171") then 1
  else if decide (c = "#94a3b8") then 2
  else if decide (c = "#4ade80") then 3
  else 4.

Definition mirrorColor (c : string) : string :=
  if decide (c = "#ef4444") then "#22c55e"
  else if decide (c = "#f87171") then "#4ade80"
  else if decide (c = "#4ade80") then "#f87171"
  else if decide (c = "#22c55e") then "#ef4444"
  else c.

(** The response schema of the request, read on a stored result: the
    three horizons are objects with a numeric [score] and string [label]
    and [summary], and [drivers] is an array of objects with string
    [factor], [impact], [description] and [evidence].  The markup reads
    exactly these fields of an entry. *)
Definition is_number (v : option json) : bool :=
  match v with Some (JNumber _) => true | _ => false end.

Definition is_string (v : option json) : bool :=
  match v with Some (JString _) => true | _ => false end.

Definition timeline_ok (v : option json) : bool :=
  match v with
  | Some (JObject h) =>
      is_number (obj_get "score" h) && is_string (obj_get "label" h)
      && is_string (obj_get "summary" h)
  | _ => false
  end.

Definition driver_ok (v : json) : bool :=
  match v with
  | JObject d =>
      is_string (obj_get "factor" d) && is_string (obj_get "impact" d)
      && is_string (obj_get "description" d)
      && is_string (obj_get "evidence" d)
  | _ => false
  end.

Definition drivers_ok (v : option json) : bool :=
  match v with
  | Some (JArray ds) => forallb driver_ok ds
  | _ => false
  end.

Definition schema_ok (result : SentimentData) : bool :=
  timeline_ok (obj_get "historical" result)
  && timeline_ok (obj_get "current" result)
  && timeline_ok (obj_get "longTerm" result)
  && drivers_ok (obj_get "drivers" result).

End Views.

(* ===================================================================== *)
(** * Vocabulary for statements about runs                                *)
(* ===================================================================== *)

Module Runs.
Import Js Gemini App Views.

(** Every entry of the cache follows the response schema, so that the
    markup can be evaluated on it. *)
Definition cache_conforms (s : AppState) : Prop :=
  ∀ k data, sentimentData s !! k = Some data → schema_ok data = true.

(** A reply that, if it is a success, yields a result that follows the
    response schema. *)
Definition reply_conforms (reply : JsError + GenerateContentResponse) : Prop :=
  ∀ c ctx data,
    getCommoditySentiment c ctx reply = inr data → schema_ok data = true.

(** All replies delivered by a list of events conform. *)
Definition replies_conform (es : list Event) : Prop :=
  Forall (fun e => match e with
                   | Settle _ reply => reply_conforms reply
                   | _ => True
                   end) es.

(** The cache a warm-up leaves behind, by the replies to its calls: a
    success inserts at the subject's key, a failure inserts nothing. *)
Fixpoint warm_cache (ctx : Context) (cs : list string)
    (replies : list (JsError + GenerateContentResponse))
    (cache : gmap string SentimentData) : gmap string SentimentData :=
  match cs, replies with
  | c :: cs', r :: replies' =>
      warm_cache ctx cs' replies'
        (match getCommoditySentiment c ctx r with
         | inr data => <[cacheKey c ctx := data]> cache
         | inl _ => cache
         end)
  | _, _ => cache
  end.

(** An event the presentation layer can produce: commodity cards exist for
    the tracked commodities only. *)
Definition offered (e : Event) : Prop :=
  match e with
  | ClickCommodity c => c ∈ COMMODITIES
  | _ => True
  end.

(** A task all of whose calls, present and future, are for tracked
    commodities. *)
Definition tracked (t : Task) : Prop :=
  match t with
  | Fetching c _ _ => c ∈ COMMODITIES
  | Warming _ c rest => c ∈ COMMODITIES ∧ Forall (fun c' => c' ∈ COMMODITIES) rest
  end.

(** The keys of the tracked commodities under both contexts. *)
Definition tracked_keys : gset string :=
  list_to_set (flat_map (fun c => [cacheKey c India; cacheKey c Global])
                 COMMODITIES).

(** A foreground call is waiting for its reply. *)
Definition foreground_pending (m : Machine) : Prop :=
  ∃ i c ctx, tasks m !! i = Some (Some (Fetching c ctx false)).

(** Nothing in the component refers to an untracked commodity: not the
    cache, not a suspended call, not the selection. *)
Definition tracked_state (m : Machine) : Prop :=
  dom (sentimentData (ui m)) ⊆ tracked_keys
  ∧ Forall (from_option tracked True) (tasks m)
  ∧ from_option (fun c => c ∈ COMMODITIES) True (selectedCommodity (ui m)).

(** The failure's message contains [needle] somewhere. *)
Definition mentions (err : JsError) (needle : string) : Prop :=
  ∃ m pre post, message err = Some m ∧ m = pre +:+ needle +:+ post.

(** The error state is null or the message of a class of the taxonomy. *)
Definition error_in_taxonomy (s : AppState) : Prop :=
  error s = None ∨ ∃ c detail, error s = Some (class_message c detail).

End Runs.

Import Js Gemini App.

(* ===================================================================== *)
(** * Properties of [getCommoditySentiment]                               *)
(* ===================================================================== *)

Section GeminiFacts.

Lemma obj_get_set_eq k v o : obj_get k (obj_set k v o) = Some v.
Proof. unfold obj_set; simpl. by rewrite decide_True. Qed.

Lemma obj_get_set_ne k k' v o : k ≠ k' → obj_get k (obj_set k' v o) = obj_get k o.
Proof. intros Hne. unfold obj_set; simpl. by rewrite decide_False. Qed.

Lemma or_default_missing d : or_default None d = d ∧ or_default (Some "") d = d.
Proof. done. Qed.

Lemma or_default_present s d : s ≠ "" → or_default (Some s) d = s.
Proof. intros Hs. unfold or_default. by rewrite decide_False. Qed.


(** A rejection of the inference call reaches the caller unchanged, and a
    malformed text reaches it as the parser's [SyntaxError]. *)
Lemma getCommoditySentiment_throws commodity ctx reply err :
  getCommoditySentiment commodity ctx reply = inl err ↔
  reply = inl err ∨
  ∃ response msg, reply = inr response ∧ text response = BadText msg
                  ∧ err = mkError (Some msg).
Proof.
  unfold getCommoditySentiment. split.
  - destruct reply as [err'|response]; [intros [= ->]; by left|].
    destruct (text response) as [|v|msg] eqn:Ht; simpl; [done|done|].
    intros [= <-]. right. by exists response, msg.
  - intros [->|(response & msg & -> & Ht & ->)]; [done|]. by rewrite Ht.
Qed.

(** The result is the parsed object with [sources] put on top of it: every
    other field reads as in the response. *)
Lemma getCommoditySentiment_fields commodity ctx response data result name :
  parse_text (text response) = inr data →
  getCommoditySentiment commodity ctx (inr response) = inr result →
  name ≠ "sources" →
  obj_get name result = obj_get name (ownProps data).
Proof.
  unfold getCommoditySentiment. intros -> [= <-] Hne.
  by apply obj_get_set_ne.
Qed.


(** C10, as stated, fails.  A response of the inference call whose text is
    not JSON makes [JSON.parse] throw before the sources are extracted:
    the function returns no result, although the response carries a
    grounding chunk. *)
Lemma getCommoditySentiment_malformed_counterexample :
  let response :=
    mkResponse (BadText "Unexpected end of JSON input")
      (Some [mkCandidate
               (Some (mkMetadata
                        (Some [mkChunk (Some (mkWeb (Some "Mandi prices")
                                                (Some "https://example.org/a")))])))])
  in
  getCommoditySentiment "Wheat" India (inr response)
  = inl (mkError (Some "Unexpected end of JSON input"))
  ∧ ¬ ∃ result, getCommoditySentiment "Wheat" India (inr response) = inr result.
Proof.
  split; [reflexivity|]. intros [result Hr]. discriminate Hr.
Qed.

(** C10, amended.  For every response of the inference call whose text is
    absent, empty or valid JSON, [getCommoditySentiment] returns a result
    whose [sources] field is an array.  The array is empty when the
    response has no candidates, no first candidate, no grounding metadata,
    no grounding chunks or an empty array of them.  Otherwise it has one
    entry per grounding chunk of the first candidate, in order, and the
    entry of a chunk is the object [{ title, url }] where [title] is the
    chunk's web title, or "Source" when the chunk has no web record, no
    title or an empty one, and [url] is the chunk's web uri, or "#" when
    that is missing or empty. *)
Theorem getCommoditySentiment_sources_defined
    (commodity : string) (ctx : Context)
    (response : GenerateContentResponse) (data : json) :
  parse_text (text response) = inr data →
  ∃ result srcs,
    getCommoditySentiment commodity ctx (inr response) = inr result
    ∧ obj_get "sources" result = Some (JArray srcs)
    ∧ ((candidates response = None
        ∨ candidates response = Some []
        ∨ ∃ c cs, candidates response = Some (c :: cs)
            ∧ (groundingMetadata c = None
               ∨ ∃ md, groundingMetadata c = Some md
                   ∧ (groundingChunks md = None ∨ groundingChunks md = Some [])))
       → srcs = [])
    ∧ (∀ c cs md chunks,
          candidates response = Some (c :: cs) →
          groundingMetadata c = Some md →
          groundingChunks md = Some chunks →
          length srcs = length chunks
          ∧ ∀ i chunk, chunks !! i = Some chunk →
              ∃ t u,
                srcs !! i = Some (JObject [("title", JString t);
                                           ("url", JString u)])
                ∧ ((web chunk = None
                    ∨ ∃ w, web chunk = Some w
                           ∧ (web_title w = None ∨ web_title w = Some ""))
                   → t = "Source")
                ∧ (∀ w x, web chunk = Some w → web_title w = Some x →
                          x ≠ "" → t = x)
                ∧ ((web chunk = None
                    ∨ ∃ w, web chunk = Some w
                           ∧ (web_uri w = None ∨ web_uri w = Some ""))
                   → u = "#")
                ∧ (∀ w x, web chunk = Some w → web_uri w = Some x →
                          x ≠ "" → u = x)).
Proof.
  intros Hp.
  exists (obj_set "sources" (JArray (map Source_json (extract_sources response)))
            (ownProps data)),
         (map Source_json (extract_sources response)).
  split; [unfold getCommoditySentiment; by rewrite Hp|].
  split; [apply obj_get_set_eq|]. split.
  - unfold extract_sources.
    intros [->|[->|(c & cs & -> & [Hmd|(md & Hmd & [Hch|Hch])])]]; simpl;
      rewrite ?Hmd; simpl; rewrite ?Hch; done.
  - intros c cs md chunks Hc Hmd Hch.
    assert (extract_sources response = map chunk_source chunks) as ->.
    { unfold extract_sources. rewrite Hc; simpl. rewrite Hmd; simpl.
      by rewrite Hch. }
    split; [by rewrite !length_map|].
    intros i chunk Hi.
    exists (or_default (chain (web chunk) web_title) "Source"),
           (or_default (chain (web chunk) web_uri) "#").
    split.
    { rewrite !list_lookup_fmap, Hi. reflexivity. }
    split; [|split; [|split]].
    + intros [Hw|(w & Hw & [Ht|Ht])]; rewrite Hw; simpl; rewrite ?Ht; done.
    + intros w x Hw Hx Hne. rewrite Hw; simpl. rewrite Hx.
      by apply or_default_present.
    + intros [Hw|(w & Hw & [Hu|Hu])]; rewrite Hw; simpl; rewrite ?Hu; done.
    + intros w x Hw Hx Hne. rewrite Hw; simpl. rewrite Hx.
      by apply or_default_present.
Qed.

Lemma getCommoditySentiment_sources_defined_witness :
  let chunks := [mkChunk None;
                 mkChunk (Some (mkWeb (Some "Mandi prices") None));
                 mkChunk (Some (mkWeb (Some "") (Some "https://example.org/a")))] in
  let response :=
    mkResponse NoText (Some [mkCandidate (Some (mkMetadata (Some chunks)))]) in
  ∃ result srcs,
    getCommoditySentiment "Wheat" India (inr response) = inr result
    ∧ obj_get "sources" result = Some (JArray srcs)
    ∧ length srcs = 3
    ∧ srcs !! 0 = Some (JObject [("title", JString "Source");
                                 ("url", JString "#")])
    ∧ srcs !! 1 = Some (JObject [("title", JString "Mandi prices");
                                 ("url", JString "#")])
    ∧ srcs !! 2 = Some (JObject [("title", JString "Source");
                                 ("url", JString "https://example.org/a")]).
Proof.
  intros chunks response.
  destruct (getCommoditySentiment_sources_defined "Wheat" India response
              (JObject []) eq_refl)
    as (result & srcs & Hr & Hs & _ & Hchunks).
  destruct (Hchunks (mkCandidate (Some (mkMetadata (Some chunks)))) []
              (mkMetadata (Some chunks)) chunks eq_refl eq_refl eq_refl)
    as (Hlen & Hentry).
  exists result, srcs. split; [exact Hr|]. split; [exact Hs|].
  split; [exact Hlen|]. split; [|split].
  - destruct (Hentry 0 (mkChunk None) eq_refl)
      as (t & u & Hi & Ht & _ & Hu & _).
    rewrite Hi, Ht, Hu; [reflexivity|by left..].
  - destruct (Hentry 1 (mkChunk (Some (mkWeb (Some "Mandi prices") None)))
                eq_refl) as (t & u & Hi & _ & Ht & Hu & _).
    rewrite Hi, (Ht _ "Mandi prices" eq_refl eq_refl), Hu;
      [reflexivity|right; eexists; split; [reflexivity|by left]|discriminate].
  - destruct (Hentry 2 (mkChunk (Some (mkWeb (Some "")
                                         (Some "https://example.org/a"))))
                eq_refl) as (t & u & Hi & Ht & _ & _ & Hu).
    rewrite Hi, Ht, (Hu _ "https://example.org/a" eq_refl eq_refl);
      [reflexivity|discriminate|right; eexists; split; [reflexivity|by right]].
Defined.

End GeminiFacts.

(* ===================================================================== *)
(** * Properties of [fetchSentiment]                                      *)
(* ===================================================================== *)

Section FetchSentimentFacts.

Implicit Types (s : AppState) (commodity : string) (ctx : Context).
Implicit Types (err : JsError) (data : SentimentData).

(** The statements before the [await] touch two cells only. *)
Lemma fetchSentiment_begin_cells isPrefetch s :
  let s' := fetchSentiment_begin isPrefetch s in
  context s' = context s
  ∧ selectedCommodity s' = selectedCommodity s
  ∧ sentimentData s' = sentimentData s
  ∧ expandedDriver s' = expandedDriver s
  ∧ refreshIndex s' = refreshIndex s
  ∧ error s' = None
  ∧ loading s' = (if isPrefetch then loading s else true).
Proof. by destruct isPrefetch. Qed.

(** The continuation never touches the selection, the context, the
    expanded driver or the cursor. *)
Lemma fetchSentiment_resume_cells commodity ctx isPrefetch r s :
  let s' := fetchSentiment_resume commodity ctx isPrefetch r s in
  context s' = context s
  ∧ selectedCommodity s' = selectedCommodity s
  ∧ expandedDriver s' = expandedDriver s
  ∧ refreshIndex s' = refreshIndex s.
Proof. by destruct isPrefetch, r. Qed.

(** A failure of a non-foreground call is swallowed: the continuation is
    the identity on the state. *)
Lemma fetchSentiment_resume_prefetch_failure commodity ctx err s :
  fetchSentiment_resume commodity ctx true (inl err) s = s.
Proof. by destruct s. Qed.

Lemma fetchSentiment_resume_cache commodity ctx isPrefetch r s :
  sentimentData (fetchSentiment_resume commodity ctx isPrefetch r s)
  = match r with
    | inr data => <[cacheKey commodity ctx := data]> (sentimentData s)
    | inl _ => sentimentData s
    end.
Proof. by destruct isPrefetch, r. Qed.

Lemma fetchSentiment_resume_loading commodity ctx isPrefetch r s :
  loading (fetchSentiment_resume commodity ctx isPrefetch r s)
  = if isPrefetch then loading s else false.
Proof. by destruct isPrefetch, r. Qed.

Lemma fetchSentiment_resume_error commodity ctx isPrefetch r s :
  error (fetchSentiment_resume commodity ctx isPrefetch r s)
  = match r with
    | inl err => if isPrefetch then error s else Some (errorMessage err)
    | inr _ => error s
    end.
Proof. by destruct isPrefetch, r. Qed.

Lemma list_ascii_of_string_app (s1 s2 : string) :
  String.list_ascii_of_string (s1 +:+ s2)
  = String.list_ascii_of_string s1 ++ String.list_ascii_of_string s2.
Proof. induction s1 as [|a s1 IH]; simpl; [done|]. by rewrite IH. Qed.

Lemma list_ascii_of_string_inj (s1 s2 : string) :
  String.list_ascii_of_string s1 = String.list_ascii_of_string s2 → s1 = s2.
Proof.
  intros H. rewrite <-(String.string_of_list_ascii_of_string s1),
              <-(String.string_of_list_ascii_of_string s2).
  by rewrite H.
Qed.

(** The key scheme is injective: two calls share a cache slot only when
    they are for the same subject under the same context. *)
Lemma cacheKey_inj commodity1 ctx1 commodity2 ctx2 :
  cacheKey commodity1 ctx1 = cacheKey commodity2 ctx2 →
  commodity1 = commodity2 ∧ ctx1 = ctx2.
Proof.
  unfold cacheKey. intros H.
  apply (f_equal String.list_ascii_of_string) in H.
  rewrite !list_ascii_of_string_app in H.
  destruct ctx1, ctx2; simpl in H.
  - apply app_inv_tail in H. split; [by apply list_ascii_of_string_inj|done].
  - apply (f_equal (@rev _)) in H. rewrite !rev_app_distr in H.
    simpl in H. discriminate.
  - apply (f_equal (@rev _)) in H. rewrite !rev_app_distr in H.
    simpl in H. discriminate.
  - apply app_inv_tail in H. split; [by apply list_ascii_of_string_inj|done].
Qed.

(** The message of the [catch] block is the message of the failure's
    class. *)
Lemma errorMessage_class err :
  errorMessage err = class_message (classify err) (template_of (message err)).
Proof.
  unfold errorMessage, classify.
  destruct (message_includes err "API_KEY"); [done|].
  destruct (message_includes err "network" || message_includes err "fetch");
    [done|].
  by destruct (message_includes err "429").
Qed.

(** The four classes have pairwise different messages, whatever the raw
    detail: the error state names its class. *)
Lemma class_message_inj c1 c2 d1 d2 :
  class_message c1 d1 = class_message c2 d2 → c1 = c2.
Proof. destruct c1, c2; simpl; intros H; try done; by inversion H. Qed.

(** C9.  A foreground call of [fetchSentiment] sets [loading] to true and
    [error] to null before it awaits the inference call, and when the call
    settles, with a result or with any failure and whatever happened to the
    state in between, [loading] is false afterwards.  A non-foreground call
    leaves [loading] as it is, both before the await and at the
    settlement. *)
Theorem fetchSentiment_loading_protocol
    (commodity : string) (ctx : Context) (s : AppState)
    (r : JsError + SentimentData) :
  loading (fetchSentiment_begin false s) = true
  ∧ error (fetchSentiment_begin false s) = None
  ∧ loading (fetchSentiment_resume commodity ctx false r s) = false
  ∧ loading (fetchSentiment_begin true s) = loading s
  ∧ loading (fetchSentiment_resume commodity ctx true r s) = loading s.
Proof.
  repeat split; try done; by rewrite fetchSentiment_resume_loading.
Qed.

(** C3.  A call of [fetchSentiment] for (commodity, ctx), foreground or
    not, writes the cache once when the inference call succeeds, at the
    key of (commodity, ctx): that key then holds the new result and every
    other key holds what it held.  When the inference call fails the cache
    is what it was, so an earlier entry of the key is still there.  The
    statements before the await do not write the cache either. *)
Theorem fetchSentiment_cache_writes
    (commodity : string) (ctx : Context) (isPrefetch : bool) (s : AppState) :
  sentimentData (fetchSentiment_begin isPrefetch s) = sentimentData s
  ∧ (∀ data,
       let s' := fetchSentiment_resume commodity ctx isPrefetch (inr data) s in
       sentimentData s' = <[cacheKey commodity ctx := data]> (sentimentData s)
       ∧ sentimentData s' !! cacheKey commodity ctx = Some data
       ∧ (∀ k, k ≠ cacheKey commodity ctx →
               sentimentData s' !! k = sentimentData s !! k)
       ∧ (∀ commodity' ctx', (commodity', ctx') ≠ (commodity, ctx) →
               sentimentData s' !! cacheKey commodity' ctx'
               = sentimentData s !! cacheKey commodity' ctx'))
  ∧ (∀ err,
       sentimentData (fetchSentiment_resume commodity ctx isPrefetch (inl err) s)
       = sentimentData s).
Proof.
  split; [by destruct isPrefetch|]. split.
  - intros data s'. subst s'. rewrite fetchSentiment_resume_cache.
    split; [done|]. split; [apply lookup_insert_eq|].
    assert (∀ k, k ≠ cacheKey commodity ctx →
              <[cacheKey commodity ctx := data]> (sentimentData s) !! k
              = sentimentData s !! k) as Hframe
      by (intros k Hk; by rewrite lookup_insert_ne).
    split; [done|].
    intros commodity' ctx' Hne. apply Hframe.
    intros [-> ->]%cacheKey_inj. done.
  - intros err. by rewrite fetchSentiment_resume_cache.
Qed.

Lemma fetchSentiment_cache_writes_witness :
  sentimentData
    (fetchSentiment_resume "Wheat" India true (inr [("sources", JArray [])])
       initialState) !! "Sugar-India" = None.
Proof.
  destruct (fetchSentiment_cache_writes "Wheat" India true initialState)
    as (_ & Hok & _).
  destruct (Hok [("sources", JArray [])]) as (_ & _ & Hother & _).
  rewrite Hother; [reflexivity|]. vm_compute. discriminate.
Defined.

End FetchSentimentFacts.

(* ===================================================================== *)
(** * Properties of the event loop                                        *)
(* ===================================================================== *)

Section EventLoopFacts.

Implicit Types (m : Machine) (e : Event) (es : list Event).

(** Case analysis on the observations of one turn: membership in, and
    [Forall] over, an explicit list. *)
Ltac in_obs :=
  repeat match goal with
    | H : _ ∈ [] |- _ => by apply elem_of_nil in H
    | H : _ ∈ _ :: _ |- _ => apply elem_of_cons in H as [H|H]
    | H : Forall _ (_ :: _) |- _ => apply Forall_cons in H as [? H]
    | H : @eq Obs _ _ |- _ =>
        first [discriminate H | injection H; clear H; intros; subst]
    | H : false = true |- _ => discriminate H
    | H : true = false |- _ => discriminate H
    | H : obs_isPrefetch (_ _) = true |- _ => simpl in H
    end.

Lemma run_cons e es m :
  run (e :: es) m
  = (fst (run es (fst (step e m))),
     snd (step e m) ++ snd (run es (fst (step e m)))).
Proof.
  simpl. destruct (step e m) as [m1 obs1]; simpl.
  by destruct (run es m1) as [m2 obs2].
Qed.

Lemma run_app es1 es2 m :
  fst (run (es1 ++ es2) m) = fst (run es2 (fst (run es1 m))).
Proof.
  revert m. induction es1 as [|e es1 IH]; intros m; [done|].
  rewrite <-app_comm_cons, !run_cons. simpl. apply IH.
Qed.

Lemma initialFetch_loop_ui ctx cs i m :
  ui (fst (initialFetch_loop ctx cs i m))
  = match cs with
    | [] => ui m
    | _ :: _ => fetchSentiment_begin true (ui m)
    end.
Proof. by destruct cs. Qed.

(** What the settlement of a task does, whichever kind of task it is: the
    continuation of [fetchSentiment] runs on the state, and a warm-up goes
    on to its next iteration. *)
Lemma step_settle i reply m t :
  tasks m !! i = Some (Some t) →
  ui (fst (step (Settle i reply) m))
  = let commodity := (task_dispatch t).1.1 in
    let ctx := (task_dispatch t).1.2 in
    let s1 := fetchSentiment_resume commodity ctx (task_dispatch t).2
                (getCommoditySentiment commodity ctx reply) (ui m) in
    match t with
    | Warming _ _ (_ :: _) => fetchSentiment_begin true s1
    | _ => s1
    end.
Proof.
  intros Ht. destruct t as [c ctx p|ctx c rest]; simpl; rewrite Ht; [done|].
  by destruct rest.
Qed.

Lemma step_settle_idle i reply m :
  (tasks m !! i = None ∨ tasks m !! i = Some None) →
  step (Settle i reply) m = (m, []).
Proof. intros [Ht|Ht]; simpl; by rewrite Ht. Qed.

Lemma step_settle_cache i reply m t :
  tasks m !! i = Some (Some t) →
  sentimentData (ui (fst (step (Settle i reply) m)))
  = match getCommoditySentiment (task_dispatch t).1.1 (task_dispatch t).1.2
            reply with
    | inr data =>
        <[cacheKey (task_dispatch t).1.1 (task_dispatch t).1.2 := data]>
          (sentimentData (ui m))
    | inl _ => sentimentData (ui m)
    end.
Proof.
  intros Ht. rewrite (step_settle _ _ _ _ Ht).
  destruct t as [c ctx p|ctx c [|c' rest]]; cbn [task_dispatch fst snd];
    cbv zeta; apply fetchSentiment_resume_cache.
Qed.

(** Every turn of the event loop either leaves the cache as it is, or is
    the successful settlement of a task and inserts the result at the key
    of that task's subject and context. *)
Lemma step_cache e m :
  sentimentData (ui (fst (step e m))) = sentimentData (ui m)
  ∨ ∃ i reply t data,
      e = Settle i reply
      ∧ tasks m !! i = Some (Some t)
      ∧ getCommoditySentiment (task_dispatch t).1.1 (task_dispatch t).1.2 reply
        = inr data
      ∧ sentimentData (ui (fst (step e m)))
        = <[cacheKey (task_dispatch t).1.1 (task_dispatch t).1.2 := data]>
            (sentimentData (ui m)).
Proof.
  destruct e as [c|ctx| | |idx| |i reply].
  - left. simpl. unfold handleCommodityClick.
    by destruct (sentimentData (ui m) !! _).
  - left. simpl. by case_decide.
  - by left.
  - left. simpl. by destruct (selectedCommodity (ui m)).
  - by left.
  - by left.
  - destruct (tasks m !! i) as [[t|]|] eqn:Ht;
      [|left; rewrite step_settle_idle; auto..].
    rewrite (step_settle_cache _ _ _ _ Ht).
    destruct (getCommoditySentiment _ _ reply) as [err|data] eqn:Hr;
      [by left|].
    right. by exists i, reply, t, data.
Qed.

Lemma step_cache_is_Some e m k :
  is_Some (sentimentData (ui m) !! k) →
  is_Some (sentimentData (ui (fst (step e m))) !! k).
Proof.
  intros Hk. destruct (step_cache e m) as [->|(i & reply & t & data & _ & _ & _ & ->)];
    [done|].
  rewrite lookup_insert. case_decide; [by eexists|done].
Qed.

Lemma run_cache_is_Some es m k :
  is_Some (sentimentData (ui m) !! k) →
  is_Some (sentimentData (ui (fst (run es m))) !! k).
Proof.
  revert m. induction es as [|e es IH]; intros m Hk; [done|].
  rewrite run_cons; simpl. by apply IH, step_cache_is_Some.
Qed.

(** The loading protocol, seen on the event loop: whatever the event, a
    turn that issues a foreground call ends with [loading] set and [error]
    null, a turn in which a foreground call settles ends with [loading]
    false, and a turn that issues and settles non-foreground calls only (or
    nothing) leaves [loading] as it was. *)
Lemma step_loading_protocol e m :
  (∀ i c ctx, Issued i c ctx false ∈ snd (step e m) →
     loading (ui (fst (step e m))) = true ∧ error (ui (fst (step e m))) = None)
  ∧ (∀ i c ctx ok, Settled i c ctx false ok ∈ snd (step e m) →
       loading (ui (fst (step e m))) = false)
  ∧ (Forall (fun o => obs_isPrefetch o = true) (snd (step e m)) →
       loading (ui (fst (step e m))) = loading (ui m)).
Proof.
  destruct e as [c|ctx| | |idx| |i reply]; simpl.
  - unfold handleCommodityClick.
    destruct (sentimentData (ui m) !! _); simpl; (split; [|split]); intros;
      in_obs; try done.
  - case_decide; simpl; (split; [|split]); intros; in_obs; done.
  - (split; [|split]); intros; in_obs; done.
  - destruct (selectedCommodity (ui m)); simpl; (split; [|split]); intros;
      in_obs; done.
  - (split; [|split]); intros; in_obs; done.
  - (split; [|split]); intros; in_obs; done.
  - destruct (tasks m !! i) as [[[c ctx p|ctx c [|c' rest]]|]|]; simpl;
      (split; [|split]); intros; in_obs; try done;
      try apply fetchSentiment_resume_loading.
    destruct p; [apply fetchSentiment_resume_loading|done].
Qed.

(** Every turn that issues a call, foreground or not, ends with [error]
    null. *)
Lemma step_issue_clears_error e m i c ctx p :
  Issued i c ctx p ∈ snd (step e m) → error (ui (fst (step e m))) = None.
Proof.
  destruct e as [c'|ctx'| | |idx| |j reply]; simpl.
  - unfold handleCommodityClick.
    destruct (sentimentData (ui m) !! _); simpl; intros; in_obs; done.
  - case_decide; simpl; intros; in_obs; done.
  - intros; in_obs.
  - destruct (selectedCommodity (ui m)); simpl; intros; in_obs; done.
  - intros; in_obs.
  - done.
  - destruct (tasks m !! j) as [[[c' ctx' p'|ctx' c' [|c'' rest]]|]|]; simpl;
      intros; in_obs; done.
Qed.

(** A foreground call that fails, on the event loop: when its task
    settles with a failure, [error] is the message of the failure and
    [loading] is false. *)
Lemma step_settle_foreground_failure i reply m c ctx err :
  tasks m !! i = Some (Some (Fetching c ctx false)) →
  getCommoditySentiment c ctx reply = inl err →
  error (ui (fst (step (Settle i reply) m))) = Some (errorMessage err)
  ∧ loading (ui (fst (step (Settle i reply) m))) = false
  ∧ sentimentData (ui (fst (step (Settle i reply) m))) = sentimentData (ui m).
Proof.
  intros Ht Hr. rewrite (step_settle _ _ _ _ Ht). simpl. by rewrite Hr.
Qed.

(** C7.  An entry of the cache survives every turn of the event loop: after
    any event the key still holds the same result, unless the event is the
    successful settlement of a call for the subject and context of that
    very key, and then the key holds the new result.  In particular a
    context switch leaves the whole cache as it is, and over any run the key
    stays present. *)
Theorem cache_entries_persist
    (e : Event) (m : Machine) (k : string) (v : SentimentData) :
  sentimentData (ui m) !! k = Some v →
  (sentimentData (ui (fst (step e m))) !! k = Some v
   ∨ ∃ i reply t data,
       e = Settle i reply
       ∧ tasks m !! i = Some (Some t)
       ∧ k = cacheKey (task_dispatch t).1.1 (task_dispatch t).1.2
       ∧ getCommoditySentiment (task_dispatch t).1.1 (task_dispatch t).1.2 reply
         = inr data
       ∧ sentimentData (ui (fst (step e m))) !! k = Some data)
  ∧ (∀ ctx, sentimentData (ui (fst (step (ClickContext ctx) m)))
            = sentimentData (ui m))
  ∧ (∀ es, is_Some (sentimentData (ui (fst (run es m))) !! k)).
Proof.
  intros Hk. split; [|split].
  - destruct (step_cache e m) as [->|(i & reply & t & data & -> & Ht & Hr & Hc)];
      [by left|].
    destruct (decide (k = cacheKey (task_dispatch t).1.1 (task_dispatch t).1.2))
      as [->|Hne].
    + right. exists i, reply, t, data. repeat split; try done.
      rewrite Hc. apply lookup_insert_eq.
    + left. rewrite Hc. by rewrite lookup_insert_ne.
  - intros ctx. simpl. by case_decide.
  - intros es. apply run_cache_is_Some. by exists v.
Qed.



Lemma cache_entries_persist_witness :
  let m := fst (run [Settle 0 (inr (mkResponse NoText None))] (fst mount)) in
  sentimentData (ui m) !! "Wheat-India" = Some [("sources", JArray [])]
  ∧ sentimentData (ui (fst (step (ClickContext Global) m)))
    = sentimentData (ui m).
Proof.
  intros m.
  assert (sentimentData (ui m) !! "Wheat-India" = Some [("sources", JArray [])])
    as Hk by (vm_compute; reflexivity).
  split; [exact Hk|].
  apply (cache_entries_persist Tick m "Wheat-India" _ Hk).
Defined.

End EventLoopFacts.

(* ===================================================================== *)
(** * The background refresh cursor                                       *)
(* ===================================================================== *)

Section RoundRobin.

(** Walking a cursor [c] forward [a + (c + 1)] times through a ring of that
    size visits the positions after [c] up to the end, then wraps and
    visits those from 0 up to [c]. *)
Lemma cursor_walk_split (c a : nat) :
  (fun j => (c + j) mod (a + (c + 1))) <$> seq 1 (a + (c + 1))
  = seq (c + 1) a ++ seq 0 (c + 1).
Proof.
  rewrite seq_app, fmap_app. f_equal.
  - apply list_eq; intros i. rewrite list_lookup_fmap.
    destruct (decide (i < a)) as [Hi|Hi].
    + rewrite !lookup_seq_lt by done. simpl. f_equal.
      rewrite Nat.mod_small; lia.
    + by rewrite !lookup_seq_ge by lia.
  - apply list_eq; intros i. rewrite list_lookup_fmap.
    destruct (decide (i < c + 1)) as [Hi|Hi].
    + rewrite !lookup_seq_lt by done. simpl. f_equal.
      replace (c + S (a + i)) with (i + 1 * (a + (c + 1))) by lia.
      rewrite Nat.Div0.mod_add. apply Nat.mod_small; lia.
    + by rewrite !lookup_seq_ge by lia.
Qed.

(** Over [n] consecutive advances from any cursor in range, each position
    of the ring is visited once. *)
Lemma cursor_walk_rotation (n c : nat) :
  c < n →
  (fun j => (c + j) mod n) <$> seq 1 n
  = seq (c + 1) (n - (c + 1)) ++ seq 0 (c + 1).
Proof.
  intros Hc. pose proof (cursor_walk_split c (n - (c + 1))) as H.
  by replace (n - (c + 1) + (c + 1)) with n in H by lia.
Qed.

Lemma cursor_walk_covers (n c : nat) :
  c < n → (fun j => (c + j) mod n) <$> seq 1 n ≡ₚ seq 0 n.
Proof.
  intros Hc. rewrite cursor_walk_rotation by done.
  rewrite Permutation_app_comm.
  replace (seq 0 n) with (seq 0 (c + 1 + (n - (c + 1)))) by (f_equal; lia).
  rewrite (seq_app (c + 1) (n - (c + 1)) 0). reflexivity.
Qed.

Lemma nextIndex_in_range (c : nat) : nextIndex c < length COMMODITIES.
Proof. unfold nextIndex. apply Nat.mod_upper_bound. done. Qed.

Lemma COMMODITIES_by_index :
  (fun i => template_of (COMMODITIES !! i)) <$> seq 0 (length COMMODITIES)
  = COMMODITIES.
Proof. reflexivity. Qed.

Lemma COMMODITIES_NoDup : NoDup COMMODITIES.
Proof. apply (bool_decide_unpack _). vm_compute. exact I. Qed.

(** One tick: the cursor advances, and a non-foreground call for the
    subject under the new cursor is issued in a new task. *)
Lemma tick_step (m : Machine) :
  step Tick m
  = ({| ui := setError None (setRefreshIndex (nextIndex (refreshIndex (ui m)))
                               (ui m));
        tasks := tasks m
                 ++ [Some (Fetching
                             (template_of
                                (COMMODITIES !! nextIndex (refreshIndex (ui m))))
                             (context (ui m)) true)] |},
     [Issued (length (tasks m))
        (template_of (COMMODITIES !! nextIndex (refreshIndex (ui m))))
        (context (ui m)) true]).
Proof. reflexivity. Qed.

(** Only a tick moves the cursor. *)
Lemma step_refreshIndex (e : Event) (m : Machine) :
  refreshIndex (ui (fst (step e m)))
  = match e with
    | Tick => nextIndex (refreshIndex (ui m))
    | _ => refreshIndex (ui m)
    end.
Proof.
  destruct e as [c|ctx| | |idx| |i reply]; try done.
  - simpl. unfold handleCommodityClick.
    by destruct (sentimentData (ui m) !! _).
  - simpl. by case_decide.
  - simpl. by destruct (selectedCommodity (ui m)).
  - destruct (tasks m !! i) as [[t|]|] eqn:Ht;
      [|rewrite step_settle_idle; auto..].
    rewrite (step_settle _ _ _ _ Ht). cbv zeta.
    destruct t as [c ctx p|ctx c [|c' rest]];
      apply fetchSentiment_resume_cells.
Qed.

Lemma run_refreshIndex_in_range (es : list Event) (m : Machine) :
  refreshIndex (ui m) < length COMMODITIES →
  refreshIndex (ui (fst (run es m))) < length COMMODITIES.
Proof.
  revert m. induction es as [|e es IH]; intros m Hm; [done|].
  rewrite run_cons; simpl. apply IH. rewrite step_refreshIndex.
  destruct e; auto using nextIndex_in_range.
Qed.

(** The subjects refreshed by [k] consecutive ticks, by cursor position. *)
Lemma ticks_issued (k : nat) (m : Machine) :
  issued_commodities (snd (run (replicate k Tick) m))
  = (fun j => template_of
                (COMMODITIES !! ((refreshIndex (ui m) + j) mod length COMMODITIES)))
    <$> seq 1 k.
Proof.
  revert m. induction k as [|k IH]; intros m; [done|].
  cbn [replicate]. rewrite run_cons. cbn [snd].
  unfold issued_commodities at 1. rewrite omap_app.
  fold (issued_commodities (snd (run (replicate k Tick) (fst (step Tick m))))).
  rewrite IH, step_refreshIndex, tick_step. cbn [snd omap fst].
  cbn [seq fmap list_fmap]. f_equal.
  rewrite <-(fmap_S_seq 1), <-list_fmap_compose.
  apply list_fmap_ext. intros _ j _. cbv beta delta [compose]. unfold nextIndex.
  do 2 f_equal. rewrite Nat.Div0.add_mod_idemp_l. f_equal. lia.
Qed.

Lemma ticks_issued_by_cursor (k : nat) (m : Machine) :
  issued_commodities (snd (run (replicate k Tick) m))
  = (fun i => template_of (COMMODITIES !! i))
    <$> ((fun j => (refreshIndex (ui m) + j) mod length COMMODITIES)
         <$> seq 1 k).
Proof. by rewrite ticks_issued, <-list_fmap_compose. Qed.

(** C4.  From the mounted component on, the cursor is always below the
    number of tracked subjects.  A tick sets it to its successor modulo
    that number and issues one non-foreground call, for the subject at the
    new cursor under the current context; no other event moves the cursor.
    Any N consecutive ticks, from a cursor in range, refresh the subjects
    after the cursor and then those up to it: every subject once. *)
Theorem refresh_cursor_round_robin (m : Machine) :
  (∀ es, refreshIndex (ui (fst (run es (fst mount)))) < length COMMODITIES)
  ∧ (∃ commodity,
       COMMODITIES !! ((refreshIndex (ui m) + 1) mod length COMMODITIES)
       = Some commodity
       ∧ refreshIndex (ui (fst (step Tick m)))
         = (refreshIndex (ui m) + 1) mod length COMMODITIES
       ∧ snd (step Tick m)
         = [Issued (length (tasks m)) commodity (context (ui m)) true]
       ∧ tasks (fst (step Tick m))
         = tasks m ++ [Some (Fetching commodity (context (ui m)) true)])
  ∧ (∀ e, e ≠ Tick →
          refreshIndex (ui (fst (step e m))) = refreshIndex (ui m))
  ∧ (refreshIndex (ui m) < length COMMODITIES →
     let issued :=
       issued_commodities (snd (run (replicate (length COMMODITIES) Tick) m)) in
     issued = drop (refreshIndex (ui m) + 1) COMMODITIES
              ++ take (refreshIndex (ui m) + 1) COMMODITIES
     ∧ issued ≡ₚ COMMODITIES
     ∧ NoDup issued).
Proof.
  split; [|split; [|split]].
  - intros es. apply run_refreshIndex_in_range. vm_compute. lia.
  - pose proof (nextIndex_in_range (refreshIndex (ui m))) as Hlt.
    apply lookup_lt_is_Some_2 in Hlt as [commodity Hc].
    exists commodity. rewrite tick_step. unfold nextIndex in *.
    rewrite Hc. done.
  - intros e He. rewrite step_refreshIndex. by destruct e.
  - intros Hc issued.
    assert (issued ≡ₚ COMMODITIES) as Hperm.
    { subst issued. rewrite ticks_issued_by_cursor.
      rewrite cursor_walk_covers by done.
      by rewrite COMMODITIES_by_index. }
    split; [|split; [done|]].
    + subst issued. rewrite ticks_issued_by_cursor.
      rewrite cursor_walk_rotation by done.
      revert Hc. generalize (refreshIndex (ui m)). intros c Hc.
      do 5 (destruct c as [|c]; [reflexivity|]).
      simpl in Hc. lia.
    + rewrite Hperm. apply COMMODITIES_NoDup.
Qed.

Lemma refresh_cursor_round_robin_witness :
  issued_commodities
    (snd (run (replicate (length COMMODITIES) Tick) (fst mount)))
  = ["Cashew"; "Maize"; "Chana"; "Sugar"; "Wheat"].
Proof.
  apply (refresh_cursor_round_robin (fst mount)).
  vm_compute. lia.
Defined.

End RoundRobin.

(* ===================================================================== *)
(** * The prefetch driver                                                 *)
(* ===================================================================== *)

Section PrefetchDriver.

Implicit Types (replies : list (JsError + GenerateContentResponse)).

Lemma step_settle_warming i reply m ctx c rest :
  tasks m !! i = Some (Some (Warming ctx c rest)) →
  step (Settle i reply) m
  = let r := getCommoditySentiment c ctx reply in
    let m1 := {| ui := fetchSentiment_resume c ctx true r (ui m);
                 tasks := tasks m |} in
    (fst (initialFetch_loop ctx rest i m1),
     Settled i c ctx true (is_ok r) :: snd (initialFetch_loop ctx rest i m1)).
Proof.
  intros Ht. simpl. rewrite Ht.
  by destruct (initialFetch_loop _ _ _ _).
Qed.

Lemma sequential_trace_issued i ctx cs replies :
  length replies = length cs →
  issued_commodities (sequential_trace i ctx cs replies) = cs.
Proof.
  revert replies. induction cs as [|c cs IH]; intros [|r replies] Hlen;
    try done.
  simpl. f_equal. apply IH. by injection Hlen.
Qed.

Lemma sequential_trace_prefetch i ctx cs replies :
  Forall (fun o => obs_isPrefetch o = true) (sequential_trace i ctx cs replies).
Proof.
  revert replies. induction cs as [|c cs IH]; intros [|r replies];
    simpl; auto.
Qed.

(** The loop of [initialFetch], from any of its iterations on: fed the
    settlements of its own calls, it issues the remaining subjects in
    order, each after the one before has settled, and then finishes; the
    outcome of a call has no influence on the calls that follow. *)
Lemma initialFetch_loop_run ctx i cs :
  ∀ replies m,
    i < length (tasks m) →
    length replies = length cs →
    snd (initialFetch_loop ctx cs i m)
    ++ snd (run (Settle i <$> replies) (fst (initialFetch_loop ctx cs i m)))
    = sequential_trace i ctx cs replies
    ∧ tasks (fst (run (Settle i <$> replies)
                      (fst (initialFetch_loop ctx cs i m)))) !! i
      = Some None.
Proof.
  induction cs as [|c rest IH]; intros [|r rs] m Hi Hlen; try done.
  - simpl. split; [done|]. by apply list_lookup_insert_eq.
  - cbn [initialFetch_loop fst snd fmap list_fmap].
    rewrite run_cons. cbn [fst snd].
    erewrite step_settle_warming by (by apply list_lookup_insert_eq).
    cbv zeta. cbn [fst snd ui tasks].
    match goal with
    | |- context [initialFetch_loop ctx rest i ?m1] =>
        destruct (IH rs m1) as [Htrace Hdone]
    end.
    { simpl. by rewrite length_insert. }
    { by injection Hlen. }
    split; [|exact Hdone].
    simpl. do 2 f_equal. exact Htrace.
Qed.

Lemma run_app_obs es1 es2 m :
  snd (run (es1 ++ es2) m)
  = snd (run es1 m) ++ snd (run es2 (fst (run es1 m))).
Proof.
  revert m. induction es1 as [|e es1 IH]; intros m; [done|].
  rewrite <-app_comm_cons, !run_cons. cbn [fst snd].
  by rewrite IH, app_assoc.
Qed.

(** An event that is not a settlement of task [i] leaves the slot of task
    [i] alone and makes no observation on its behalf. *)
Lemma step_foreign i e m :
  i < length (tasks m) →
  settles i e = false →
  tasks (fst (step e m)) !! i = tasks m !! i
  ∧ (length (tasks m) ≤ length (tasks (fst (step e m))))%nat
  ∧ filter (fun o => obs_task o = i) (snd (step e m)) = [].
Proof.
  intros Hi He.
  assert (∀ c ctx p m0, tasks m0 = tasks m →
            let r := call_fetchSentiment c ctx p m0 in
            tasks (fst r) !! i = tasks m !! i
            ∧ (length (tasks m) ≤ length (tasks (fst r)))%nat
            ∧ filter (fun o => obs_task o = i) (snd r) = []) as Hcall.
  { intros c ctx p m0 Hm0. simpl. rewrite Hm0.
    split; [by apply lookup_app_l|]. split; [rewrite length_app; lia|].
    rewrite filter_cons_False; [done|]. simpl. lia. }
  destruct e as [c|ctx| | |idx| |j reply]; simpl.
  - unfold handleCommodityClick.
    destruct (sentimentData (ui m) !! _); [done|]. by apply Hcall.
  - case_decide; [done|]. unfold initialFetch. cbn [initialFetch_loop COMMODITIES tasks fst snd].
    split; [|split].
    + rewrite list_lookup_insert_ne by lia. by apply lookup_app_l.
    + rewrite length_insert, length_app. lia.
    + rewrite filter_cons_False; [done|]. simpl. lia.
  - done.
  - destruct (selectedCommodity (ui m)); [|done]. by apply Hcall.
  - done.
  - by apply Hcall.
  - simpl in He. apply bool_decide_eq_false in He.
    destruct (tasks m !! j) as [[[c ctx p|ctx c [|c' rest]]|]|]; simpl;
      rewrite ?list_lookup_insert_ne, ?length_insert by done;
      repeat split; try done;
      repeat (rewrite filter_cons_False by (simpl; lia)); done.
Qed.

Lemma run_foreign i es m :
  i < length (tasks m) →
  Forall (fun e => settles i e = false) es →
  tasks (fst (run es m)) !! i = tasks m !! i
  ∧ (length (tasks m) ≤ length (tasks (fst (run es m))))%nat
  ∧ filter (fun o => obs_task o = i) (snd (run es m)) = [].
Proof.
  revert m. induction es as [|e es IH]; intros m Hi Hes; [done|].
  apply Forall_cons in Hes as [He Hes].
  destruct (step_foreign i e m Hi He) as (Ht & Hlen & Hobs).
  destruct (IH (fst (step e m))) as (Ht' & Hlen' & Hobs'); [lia|done|].
  rewrite run_cons. cbn [fst snd].
  split; [by rewrite Ht'|]. split; [lia|].
  by rewrite filter_app, Hobs, Hobs'.
Qed.

(** The warm-up under interleaving: whatever other events are delivered
    between the settlements of its calls (clicks, ticks, settlements of
    other tasks, further context switches), the calls of the warm-up are
    issued in subject order, one at a time. *)
Lemma initialFetch_loop_interleaved ctx i cs :
  ∀ segs m,
    i < length (tasks m) →
    length segs = length cs →
    Forall (fun sr => Forall (fun e => settles i e = false) sr.1) segs →
    filter (fun o => obs_task o = i)
      (snd (initialFetch_loop ctx cs i m)
       ++ snd (run (interleaved i segs) (fst (initialFetch_loop ctx cs i m))))
    = sequential_trace i ctx cs (snd <$> segs).
Proof.
  induction cs as [|c rest IH]; intros [|[seg r] segs] m Hi Hlen Hsegs;
    try done.
  apply Forall_cons in Hsegs as [Hseg Hsegs]. cbn [fst] in Hseg.
  cbn [initialFetch_loop fst snd fmap list_fmap sequential_trace].
  set (m0 := {| ui := fetchSentiment_begin true (ui m);
                tasks := <[i := Some (Warming ctx c rest)]> (tasks m) |}).
  assert (i < length (tasks m0)) as Hi0 by (simpl; by rewrite length_insert).
  destruct (run_foreign i seg m0 Hi0 Hseg) as (Ht & Hlen0 & Hobs).
  unfold interleaved. cbn [flat_map fst snd].
  fold (interleaved i segs).
  rewrite <-app_assoc, run_app_obs. cbn [app]. rewrite run_cons. cbn [fst snd].
  erewrite step_settle_warming
    by (rewrite Ht; simpl; by apply list_lookup_insert_eq).
  cbv zeta. cbn [fst snd].
  rewrite filter_cons_True by done. f_equal.
  rewrite filter_app, Hobs. cbn [app].
  rewrite filter_cons_True by done. f_equal.
  apply IH; [simpl; lia|by injection Hlen|done].
Qed.

(** C5.  When the context changes, and likewise at the first load, the
    prefetch driver issues one non-foreground call per tracked subject, in
    the order of the subject list and under the new context; each call is
    issued only when the one before it has settled, and this is so
    whatever the replies are, failures included: after the last reply the
    driver has finished and every subject has been requested once. *)
Theorem prefetch_driver_sequential
    (m : Machine) (ctx : Context)
    (replies : list (JsError + GenerateContentResponse)) :
  ctx ≠ context (ui m) →
  length replies = length COMMODITIES →
  let i := length (tasks m) in
  let obs := snd (run (ClickContext ctx :: (Settle i <$> replies)) m) in
  let m' := fst (run (ClickContext ctx :: (Settle i <$> replies)) m) in
  obs = sequential_trace i ctx COMMODITIES replies
  ∧ issued_commodities obs = COMMODITIES
  ∧ Forall (fun o => obs_isPrefetch o = true) obs
  ∧ tasks m' !! i = Some None
  ∧ snd mount ++ snd (run (Settle 0 <$> replies) (fst mount))
    = sequential_trace 0 India COMMODITIES replies
  ∧ tasks (fst (run (Settle 0 <$> replies) (fst mount))) !! 0 = Some None.
Proof.
  intros Hctx Hlen i obs m'.
  assert (obs = sequential_trace i ctx COMMODITIES replies
          ∧ tasks m' !! i = Some None) as [Hobs Hdone].
  { subst obs m'. rewrite run_cons. cbn [fst snd].
    assert (step (ClickContext ctx) m
            = initialFetch {| ui := setContext ctx (ui m); tasks := tasks m |})
      as -> by (simpl; by rewrite decide_False).
    unfold initialFetch. cbn [ui tasks context setContext].
    apply initialFetch_loop_run; [|done].
    cbn [tasks]. rewrite length_app. simpl. lia. }
  split; [done|]. rewrite Hobs.
  split; [by apply sequential_trace_issued|].
  split; [apply sequential_trace_prefetch|].
  split; [done|].
  unfold mount, initialFetch. cbn [ui tasks context initialState length].
  apply initialFetch_loop_run; [simpl; lia|done].
Qed.

(** The same for a context switch in the middle of other activity. *)
Lemma context_switch_interleaved (m : Machine) (ctx : Context)
    (segs : list (list Event * (JsError + GenerateContentResponse))) :
  ctx ≠ context (ui m) →
  length segs = length COMMODITIES →
  Forall (fun sr => Forall (fun e => settles (length (tasks m)) e = false) sr.1)
    segs →
  filter (fun o => obs_task o = length (tasks m))
    (snd (run (ClickContext ctx :: interleaved (length (tasks m)) segs) m))
  = sequential_trace (length (tasks m)) ctx COMMODITIES (snd <$> segs).
Proof.
  intros Hctx Hlen Hsegs. rewrite run_cons. cbn [fst snd].
  assert (step (ClickContext ctx) m
          = initialFetch {| ui := setContext ctx (ui m); tasks := tasks m |})
    as -> by (simpl; by rewrite decide_False).
  unfold initialFetch. cbn [ui tasks context setContext].
  apply initialFetch_loop_interleaved; [|done..].
  cbn [tasks]. rewrite length_app. simpl. lia.
Qed.

Lemma prefetch_driver_sequential_witness :
  let fails := replicate 5 (inl (mkError (Some "503 Service Unavailable")))
               : list (JsError + GenerateContentResponse) in
  Global ≠ context (ui (fst mount))
  ∧ issued_commodities
      (snd (run (ClickContext Global :: (Settle 1 <$> fails)) (fst mount)))
    = COMMODITIES.
Proof.
  intros fails. split; [discriminate|].
  apply (prefetch_driver_sequential (fst mount) Global fails);
    [discriminate|reflexivity].
Defined.

End PrefetchDriver.

(* ===================================================================== *)
(** * Where the code departs from the design                              *)
(* ===================================================================== *)

Section Departures.

(** A failing non-foreground call, run from issue to settlement with
    nothing in between, leaves every cell as it was except [error], which
    it sets to null: [setError(null)] before the await is not guarded by
    [isPrefetch], unlike [setLoading] next to it and unlike the [catch] and
    [finally] blocks. *)
Lemma fetchSentiment_prefetch_failure commodity ctx err s :
  fetchSentiment_resume commodity ctx true (inl err)
    (fetchSentiment_begin true s)
  = setError None s.
Proof. apply fetchSentiment_resume_prefetch_failure. Qed.

Lemma tick_clears_error (m : Machine) : error (ui (fst (step Tick m))) = None.
Proof. by rewrite tick_step. Qed.

(** C1.  A run in which a failing background call changes the error state.
    The user opens Sugar, the foreground call fails with a throttling
    error and the rate-limit message is shown; then the interval fires,
    the background call for Cashew is issued and fails.  The error state
    held the rate-limit message before the background call was issued and
    is null after it has completed; [loading] is unchanged. *)
Theorem background_failure_clears_error :
  let m1 := fst (run [ClickCommodity "Sugar";
                      Settle 1 (inl (mkError (Some "429 Too Many Requests")))]
                     (fst mount)) in
  let background := [Tick; Settle 2 (inl (mkError (Some "Failed to fetch")))] in
  let m2 := fst (run background m1) in
  error (ui m1) = Some "Rate limit exceeded. Please wait."
  ∧ loading (ui m1) = false
  ∧ snd (run background m1)
    = [Issued 2 "Cashew" India true; Settled 2 "Cashew" India true false]
  ∧ error (ui m2) = None
  ∧ loading (ui m2) = false.
Proof. vm_compute. done. Qed.




End Departures.

Import Views Runs.

(* ===================================================================== *)
(** * Further properties of [getCommoditySentiment]                       *)
(* ===================================================================== *)

Section GeminiMore.

Lemma or_default_nonempty x d : d ≠ "" → or_default x d ≠ "".
Proof.
  intros Hd. unfold or_default. destruct x as [s|]; [|done].
  by case_decide.
Qed.

(** X1.  Every source that [getCommoditySentiment] extracts has a
    non-empty title and a non-empty url, whatever the grounding chunks
    hold. *)
Theorem extract_sources_nonempty (response : GenerateContentResponse) :
  Forall (fun s => title s ≠ "" ∧ url s ≠ "") (extract_sources response).
Proof.
  unfold extract_sources.
  destruct (chain (chain (chain (candidates response) head) groundingMetadata)
              groundingChunks) as [chunks|]; [|constructor].
  apply Forall_forall. intros s Hs.
  apply list_elem_of_fmap in Hs as (chunk & -> & _).
  split; by apply or_default_nonempty.
Qed.

(** X2.  The sources come from the first candidate only: two responses
    with the same first candidate yield the same sources, whatever their
    other candidates and texts are, and there are as many sources as the
    first candidate has grounding chunks. *)
Theorem extract_sources_first_candidate
    (r1 r2 : GenerateContentResponse) (c : Candidate) (cs1 cs2 : list Candidate) :
  candidates r1 = Some (c :: cs1) →
  candidates r2 = Some (c :: cs2) →
  extract_sources r1 = extract_sources r2
  ∧ length (extract_sources r1)
    = length (default [] (chain (groundingMetadata c) groundingChunks)).
Proof.
  intros H1 H2. unfold extract_sources. rewrite H1, H2. simpl.
  split; [done|].
  destruct (chain (groundingMetadata c) groundingChunks); simpl; [|done].
  by rewrite length_map.
Qed.

Lemma extract_sources_first_candidate_witness :
  extract_sources
    (mkResponse NoText
       (Some [mkCandidate (Some (mkMetadata (Some [mkChunk None])));
              mkCandidate None]))
  = extract_sources
      (mkResponse (BadText "Unexpected token")
         (Some [mkCandidate (Some (mkMetadata (Some [mkChunk None])))])).
Proof.
  eapply extract_sources_first_candidate; reflexivity.
Defined.

(** X3.  Every field of the parsed response other than [sources] reads
    back from the result exactly as it was in the response, present or
    absent; a [sources] field of the response itself is shadowed by the
    extracted list. *)
Theorem getCommoditySentiment_keeps_fields
    (commodity : string) (ctx : Context)
    (response : GenerateContentResponse) (data : json)
    (result : SentimentData) :
  parse_text (text response) = inr data →
  getCommoditySentiment commodity ctx (inr response) = inr result →
  (∀ name, name ≠ "sources" →
     obj_get name result = obj_get name (ownProps data))
  ∧ obj_get "sources" result
    = Some (JArray (map Source_json (extract_sources response))).
Proof.
  intros Hp Hr. split.
  - intros name Hne. by eapply getCommoditySentiment_fields.
  - unfold getCommoditySentiment in Hr. rewrite Hp in Hr.
    injection Hr as <-. apply obj_get_set_eq.
Qed.

Lemma getCommoditySentiment_keeps_fields_witness :
  ∃ result,
    getCommoditySentiment "Wheat" India
      (inr (mkResponse
              (JsonText (JObject [("sources", JString "mine");
                                  ("drivers", JArray [])])) None))
    = inr result
    ∧ obj_get "drivers" result = Some (JArray [])
    ∧ obj_get "sources" result = Some (JArray []).
Proof.
  eexists. split; [reflexivity|].
  match goal with
  | |- obj_get _ ?result = _ ∧ _ =>
      destruct (getCommoditySentiment_keeps_fields "Wheat" India
                  (mkResponse
                     (JsonText (JObject [("sources", JString "mine");
                                         ("drivers", JArray [])])) None)
                  (JObject [("sources", JString "mine"); ("drivers", JArray [])])
                  result eq_refl eq_refl) as [Hkeep Hsrc]
  end.
  split; [|exact Hsrc].
  rewrite Hkeep; [reflexivity|discriminate].
Defined.

End GeminiMore.

(* ===================================================================== *)
(** * Further properties of the failure classification                    *)
(* ===================================================================== *)

Section ClassificationMore.

Lemma prefix_spec (needle s : string) :
  String.prefix needle s = true ↔ ∃ post, s = needle +:+ post.
Proof.
  revert s. induction needle as [|a needle IH]; intros [|b s]; simpl.
  - split; [intros _; by exists ""|done].
  - split; [intros _; by exists (String b s)|done].
  - split; [done|by intros [post [=]]].
  - destruct (Ascii.ascii_dec a b) as [->|Hne].
    + rewrite IH. split; intros [post Hp]; exists post.
      * by rewrite Hp.
      * by injection Hp.
    + split; [done|]. intros [post Hp]. by injection Hp.
Qed.

(** [includes] is the substring test. *)
Lemma includes_spec (needle s : string) :
  includes needle s = true ↔ ∃ pre post, s = pre +:+ needle +:+ post.
Proof.
  induction s as [|b s IH].
  - change (includes needle "") with (String.prefix needle "" || false).
    rewrite orb_false_r, prefix_spec. split.
    + intros [post Hp]. by exists "", post.
    + intros (pre & post & Hp). destruct pre as [|a pre]; [by exists post|done].
  - change (includes needle (String b s))
      with (String.prefix needle (String b s) || includes needle s).
    rewrite orb_true_iff, prefix_spec, IH. split.
    + intros [[post Hp]|(pre & post & Hp)].
      * by exists "", post.
      * exists (String b pre), post. by rewrite Hp.
    + intros (pre & post & Hp). destruct pre as [|a pre].
      * left. by exists post.
      * right. exists pre, post. by injection Hp.
Qed.

Lemma message_includes_mentions (err : JsError) (needle : string) :
  message_includes err needle = true ↔ mentions err needle.
Proof.
  unfold message_includes, mentions. destruct (message err) as [m|].
  - rewrite includes_spec. split.
    + intros (pre & post & Hm). by exists m, pre, post.
    + intros (m' & pre & post & [= <-] & Hm). by exists pre, post.
  - split; [done|]. by intros (m' & pre & post & [=] & _).
Qed.

(** X4.  The message shown after a failed foreground call tells which
    signal the failure carried: it is the credential message exactly when
    the failure's message contains "API_KEY"; the network message exactly
    when it contains "network" or "fetch" but not "API_KEY"; the rate-limit
    message exactly when it contains "429" and none of the former; and it
    starts with "Error: " in every other case.  The tests are
    case-sensitive substring tests on the raw message. *)
Theorem errorMessage_decodes (err : JsError) :
  (errorMessage err = "Gemini API Key is missing or invalid."
   ↔ mentions err "API_KEY")
  ∧ (errorMessage err = "Network error: Unable to reach the AI service."
     ↔ ¬ mentions err "API_KEY"
       ∧ (mentions err "network" ∨ mentions err "fetch"))
  ∧ (errorMessage err = "Rate limit exceeded. Please wait."
     ↔ ¬ mentions err "API_KEY" ∧ ¬ mentions err "network"
       ∧ ¬ mentions err "fetch" ∧ mentions err "429")
  ∧ (errorMessage err = "Error: " +:+ template_of (message err)
     ↔ ¬ mentions err "API_KEY" ∧ ¬ mentions err "network"
       ∧ ¬ mentions err "fetch" ∧ ¬ mentions err "429").
Proof.
  rewrite <-!message_includes_mentions.
  assert (∀ c, errorMessage err = class_message c (template_of (message err))
               ↔ classify err = c) as Hdec.
  { intros c. rewrite errorMessage_class. split; [|by intros ->].
    intros H. by apply class_message_inj in H. }
  change "Gemini API Key is missing or invalid."
    with (class_message AuthError (template_of (message err))).
  change "Network error: Unable to reach the AI service."
    with (class_message NetworkError (template_of (message err))).
  change "Rate limit exceeded. Please wait."
    with (class_message RateLimitError (template_of (message err))).
  change ("Error: " +:+ template_of (message err))
    with (class_message UnclassifiedError (template_of (message err))).
  rewrite !Hdec. unfold classify.
  destruct (message_includes err "API_KEY"),
           (message_includes err "network"),
           (message_includes err "fetch"),
           (message_includes err "429"); simpl;
    repeat split; intros; intuition congruence.
Qed.

Lemma errorMessage_decodes_witness :
  errorMessage (mkError (Some "HTTP 429: quota"))
  = "Rate limit exceeded. Please wait."
  ∧ mentions (mkError (Some "HTTP 429: quota")) "429".
Proof.
  split; [reflexivity|].
  destruct (errorMessage_decodes (mkError (Some "HTTP 429: quota")))
    as (_ & _ & Hrate & _).
  apply Hrate. reflexivity.
Defined.

Lemma message_includes_not_mentions (err : JsError) (needle : string) :
  message_includes err needle = false ↔ ¬ mentions err needle.
Proof.
  rewrite <-message_includes_mentions. by destruct (message_includes err needle).
Qed.



End ClassificationMore.

(* ===================================================================== *)
(** * Further properties of the event loop                                *)
(* ===================================================================== *)

Section ForegroundRoundTrips.

Implicit Types (m : Machine) (c : string) (ctx : Context).

(** A call made by a handler, followed at once by the settlement of that
    call. *)
Lemma call_then_settle c ctx p m reply :
  step (Settle (length (tasks m)) reply) (fst (call_fetchSentiment c ctx p m))
  = ({| ui := fetchSentiment_resume c ctx p (getCommoditySentiment c ctx reply)
                (fetchSentiment_begin p (ui m));
        tasks := <[length (tasks m) := None]>
                   (tasks m ++ [Some (Fetching c ctx p)]) |},
     [Settled (length (tasks m)) c ctx p
        (is_ok (getCommoditySentiment c ctx reply))]).
Proof. simpl. by rewrite list_lookup_middle. Qed.

Lemma click_miss c m :
  sentimentData (ui m) !! cacheKey c (context (ui m)) = None →
  step (ClickCommodity c) m
  = call_fetchSentiment c (context (ui m)) false
      {| ui := setExpandedDriver None (setSelectedCommodity (Some c) (ui m));
         tasks := tasks m |}.
Proof. intros Hk. simpl. unfold handleCommodityClick. by rewrite Hk. Qed.

(** X5.  Select, then success: when a commodity without a cache entry is
    clicked and its call succeeds, the detail view has the result, the
    spinner is off and no error is shown; exactly one call was issued, a
    foreground one. *)
Theorem click_then_success
    (m : Machine) (c : string) (reply : JsError + GenerateContentResponse)
    (result : SentimentData) :
  sentimentData (ui m) !! cacheKey c (context (ui m)) = None →
  getCommoditySentiment c (context (ui m)) reply = inr result →
  let n := length (tasks m) in
  let m' := fst (run [ClickCommodity c; Settle n reply] m) in
  snd (run [ClickCommodity c; Settle n reply] m)
  = [Issued n c (context (ui m)) false; Settled n c (context (ui m)) false true]
  ∧ selectedCommodity (ui m') = Some c
  ∧ currentData (ui m') = Some result
  ∧ loading (ui m') = false
  ∧ error (ui m') = None.
Proof.
  intros Hk Hr n m'. subst n m'.
  rewrite !run_cons, click_miss by done. cbn [fst snd run].
  pose proof (call_then_settle c (context (ui m)) false
                {| ui := setExpandedDriver None
                           (setSelectedCommodity (Some c) (ui m));
                   tasks := tasks m |} reply) as Hs.
  cbn [tasks] in Hs. rewrite Hs, Hr. cbn [fst snd ui is_ok].
  split; [done|]. split; [done|]. split; [|done].
  unfold currentData. simpl. apply lookup_insert_eq.
Qed.

Lemma click_then_success_witness :
  currentData
    (ui (fst (run [ClickCommodity "Sugar";
                   Settle 1 (inr (mkResponse NoText None))] (fst mount))))
  = Some [("sources", JArray [])].
Proof.
  apply (click_then_success (fst mount) "Sugar"
           (inr (mkResponse NoText None)) [("sources", JArray [])]);
    reflexivity.
Defined.

(** X6.  Select, failure, retry, success: when the call of a clicked
    commodity fails, the detail view has no data, the spinner is off and
    the message of the failure is shown; Retry then issues the same
    foreground call again, and when that one succeeds the error is gone
    and the detail view has the result. *)
Theorem failure_then_retry
    (m : Machine) (c : string)
    (reply1 reply2 : JsError + GenerateContentResponse)
    (err : JsError) (result : SentimentData) :
  sentimentData (ui m) !! cacheKey c (context (ui m)) = None →
  getCommoditySentiment c (context (ui m)) reply1 = inl err →
  getCommoditySentiment c (context (ui m)) reply2 = inr result →
  let n := length (tasks m) in
  let m1 := fst (run [ClickCommodity c; Settle n reply1] m) in
  let m2 := fst (run [ClickRetry; Settle (S n) reply2] m1) in
  (currentData (ui m1) = None
   ∧ loading (ui m1) = false
   ∧ error (ui m1) = Some (errorMessage err))
  ∧ snd (run [ClickRetry; Settle (S n) reply2] m1)
    = [Issued (S n) c (context (ui m)) false;
       Settled (S n) c (context (ui m)) false true]
  ∧ (currentData (ui m2) = Some result
     ∧ loading (ui m2) = false
     ∧ error (ui m2) = None).
Proof.
  intros Hk Hr1 Hr2 n m1 m2.
  assert (fst (run [ClickCommodity c; Settle n reply1] m)
          = {| ui := fetchSentiment_resume c (context (ui m)) false (inl err)
                       (fetchSentiment_begin false
                          (setExpandedDriver None
                             (setSelectedCommodity (Some c) (ui m))));
               tasks := <[n := None]>
                          (tasks m ++ [Some (Fetching c (context (ui m)) false)])
            |}) as Hm1.
  { subst n. rewrite !run_cons, click_miss by done. cbn [fst snd run].
    pose proof (call_then_settle c (context (ui m)) false
                  {| ui := setExpandedDriver None
                             (setSelectedCommodity (Some c) (ui m));
                     tasks := tasks m |} reply1) as Hs.
    cbn [tasks] in Hs. by rewrite Hs, Hr1. }
  assert (length (tasks m1) = S n) as Hlen.
  { subst m1. rewrite Hm1. cbn [tasks].
    rewrite length_insert, length_app. simpl. subst n. lia. }
  assert (context (ui m1) = context (ui m)
          ∧ selectedCommodity (ui m1) = Some c
          ∧ sentimentData (ui m1) = sentimentData (ui m)) as (Hctx & Hsel & Hcache).
  { subst m1. by rewrite Hm1. }
  split.
  { subst m1. rewrite Hm1. by repeat split. }
  assert (step ClickRetry m1
          = call_fetchSentiment c (context (ui m)) false m1) as Hretry.
  { simpl. by rewrite Hsel, Hctx. }
  rewrite !run_cons, Hretry. cbn [fst snd run].
  pose proof (call_then_settle c (context (ui m)) false m1 reply2) as Hs.
  rewrite Hlen in Hs. subst m2.
  rewrite !run_cons, Hretry. cbn [fst snd run].
  rewrite Hs, Hr2. cbn [fst snd ui is_ok].
  split; [simpl; by rewrite Hlen|]. split; [|done].
  unfold currentData. simpl. rewrite Hsel, Hctx. apply lookup_insert_eq.
Qed.

Lemma failure_then_retry_witness :
  let m1 := fst (run [ClickCommodity "Sugar";
                      Settle 1 (inl (mkError (Some "Failed to fetch")))]
                     (fst mount)) in
  error (ui m1) = Some "Network error: Unable to reach the AI service."
  ∧ error (ui (fst (run [ClickRetry; Settle 2 (inr (mkResponse NoText None))]
                        m1))) = None.
Proof.
  intros m1.
  destruct (failure_then_retry (fst mount) "Sugar"
              (inl (mkError (Some "Failed to fetch")))
              (inr (mkResponse NoText None))
              (mkError (Some "Failed to fetch")) [("sources", JArray [])]
              eq_refl eq_refl eq_refl) as ((_ & _ & He1) & _ & (_ & _ & He2)).
  split; [exact He1|exact He2].
Defined.

End ForegroundRoundTrips.

Section SelectionAndFlags.

Implicit Types (m : Machine) (c : string) (ctx : Context).

Lemma click_miss_machine c m :
  sentimentData (ui m) !! cacheKey c (context (ui m)) = None →
  fst (step (ClickCommodity c) m)
  = {| ui := fetchSentiment_begin false
               (setExpandedDriver None (setSelectedCommodity (Some c) (ui m)));
       tasks := tasks m ++ [Some (Fetching c (context (ui m)) false)] |}.
Proof. intros Hk. by rewrite click_miss. Qed.

(** A click on a commodity whose key has an entry issues nothing and shows
    the entry. *)
Lemma handleCommodityClick_hit c m data :
  sentimentData (ui m) !! cacheKey c (context (ui m)) = Some data →
  snd (step (ClickCommodity c) m) = []
  ∧ currentData (ui (fst (step (ClickCommodity c) m))) = Some data.
Proof.
  intros Hk. simpl. unfold handleCommodityClick. rewrite Hk. simpl.
  split; [done|]. unfold currentData. simpl. exact Hk.
Qed.

(** X7.  Going back does not cancel a call.  When a commodity is clicked,
    the user goes back, and the call then succeeds, the result is cached
    although nothing is selected; clicking the commodity again shows that
    result without issuing a call. *)
Theorem back_keeps_call
    (m : Machine) (c : string) (reply : JsError + GenerateContentResponse)
    (result : SentimentData) :
  sentimentData (ui m) !! cacheKey c (context (ui m)) = None →
  getCommoditySentiment c (context (ui m)) reply = inr result →
  let n := length (tasks m) in
  let m1 := fst (run [ClickCommodity c; ClickBack; Settle n reply] m) in
  selectedCommodity (ui m1) = None
  ∧ currentData (ui m1) = None
  ∧ sentimentData (ui m1) !! cacheKey c (context (ui m)) = Some result
  ∧ snd (step (ClickCommodity c) m1) = []
  ∧ currentData (ui (fst (step (ClickCommodity c) m1))) = Some result.
Proof.
  intros Hk Hr n m1.
  assert (m1 = {| ui := fetchSentiment_resume c (context (ui m)) false
                          (inr result)
                          (setSelectedCommodity None
                             (fetchSentiment_begin false
                                (setExpandedDriver None
                                   (setSelectedCommodity (Some c) (ui m)))));
                  tasks := <[n := None]>
                             (tasks m ++ [Some (Fetching c (context (ui m)) false)])
               |}) as ->.
  { subst m1 n. rewrite !run_cons. cbn [run fst].
    rewrite click_miss_machine by done.
    cbn [step fst ui tasks]. rewrite list_lookup_middle by done.
    cbn [fst]. by rewrite Hr. }
  assert (sentimentData
            (fetchSentiment_resume c (context (ui m)) false (inr result)
               (setSelectedCommodity None
                  (fetchSentiment_begin false
                     (setExpandedDriver None
                        (setSelectedCommodity (Some c) (ui m))))))
          !! cacheKey c (context (ui m)) = Some result) as Hin
    by (simpl; apply lookup_insert_eq).
  split; [done|]. split; [done|]. split; [exact Hin|].
  by apply handleCommodityClick_hit.
Qed.

Lemma back_keeps_call_witness :
  let m1 := fst (run [ClickCommodity "Chana"; ClickBack;
                      Settle 1 (inr (mkResponse NoText None))] (fst mount)) in
  selectedCommodity (ui m1) = None
  ∧ snd (step (ClickCommodity "Chana") m1) = [].
Proof.
  intros m1.
  destruct (back_keeps_call (fst mount) "Chana"
              (inr (mkResponse NoText None)) [("sources", JArray [])]
              eq_refl eq_refl) as (Hsel & _ & _ & Hobs & _).
  split; [exact Hsel|exact Hobs].
Defined.

End SelectionAndFlags.

Section ReachableStates.

Implicit Types (m : Machine) (e : Event) (es : list Event).

Lemma step_error e m :
  error (ui (fst (step e m))) = error (ui m)
  ∨ error (ui (fst (step e m))) = None
  ∨ ∃ err, error (ui (fst (step e m))) = Some (errorMessage err).
Proof.
  destruct e as [c|ctx| | |idx| |i reply].
  - simpl. unfold handleCommodityClick.
    destruct (sentimentData (ui m) !! _); simpl; auto.
  - simpl. case_decide; simpl; auto.
  - auto.
  - simpl. destruct (selectedCommodity (ui m)); simpl; auto.
  - auto.
  - auto.
  - destruct (tasks m !! i) as [[t|]|] eqn:Ht;
      [|rewrite step_settle_idle; auto..].
    rewrite (step_settle _ _ _ _ Ht). cbv zeta.
    destruct t as [c ctx p|ctx c [|c' rest]]; cbn [task_dispatch fst snd].
    + rewrite fetchSentiment_resume_error.
      destruct (getCommoditySentiment c ctx reply), p; eauto.
    + rewrite fetchSentiment_resume_error.
      destruct (getCommoditySentiment c ctx reply); auto.
    + right; left. apply fetchSentiment_begin_cells.
Qed.

Lemma step_error_in_taxonomy e m :
  error_in_taxonomy (ui m) → error_in_taxonomy (ui (fst (step e m))).
Proof.
  intros Hm. unfold error_in_taxonomy.
  destruct (step_error e m) as [->|[->|[err ->]]]; [done|by left|].
  right. rewrite errorMessage_class. eauto.
Qed.

(** X8.  Whatever events the component receives after mounting, its error
    state is null or the message of one of the four classes; no other text
    is ever shown as the error. *)
Theorem error_always_in_taxonomy (es : list Event) :
  error_in_taxonomy (ui (fst (run es (fst mount)))).
Proof.
  assert (∀ m, error_in_taxonomy (ui m) →
               error_in_taxonomy (ui (fst (run es m)))) as Hrun.
  { induction es as [|e es IH]; intros m Hm; [done|].
    rewrite run_cons. cbn [fst]. by apply IH, step_error_in_taxonomy. }
  apply Hrun. by left.
Qed.

Lemma foreground_pending_keep m m' :
  (∀ i c ctx, tasks m !! i = Some (Some (Fetching c ctx false)) →
              tasks m' !! i = Some (Some (Fetching c ctx false))) →
  foreground_pending m → foreground_pending m'.
Proof. intros Hkeep (i & c & ctx & Hi). exists i, c, ctx. auto. Qed.

Lemma foreground_pending_call c ctx m :
  foreground_pending (fst (call_fetchSentiment c ctx false m)).
Proof.
  exists (length (tasks m)), c, ctx. simpl. by apply list_lookup_middle.
Qed.

Lemma step_loading_pending e m :
  (loading (ui m) = true → foreground_pending m) →
  loading (ui (fst (step e m))) = true → foreground_pending (fst (step e m)).
Proof.
  intros Hm.
  assert (∀ t, foreground_pending m →
               foreground_pending
                 {| ui := ui m; tasks := tasks m ++ [t] |}) as Happ.
  { intros t. apply foreground_pending_keep. intros i c ctx Hi. simpl.
    rewrite lookup_app_l; [done|]. by eapply lookup_lt_Some. }
  assert (∀ j t t', tasks m !! j = Some (Some t) →
            (∀ c ctx, t ≠ Fetching c ctx false) →
            foreground_pending m →
            foreground_pending {| ui := ui m; tasks := <[j := t']> (tasks m) |})
    as Hins.
  { intros j t t' Hj Ht. apply foreground_pending_keep. intros i c ctx Hi.
    simpl. rewrite list_lookup_insert_ne; [done|].
    intros ->. rewrite Hj in Hi. injection Hi as ->. by eapply Ht. }
  destruct e as [c|ctx| | |idx| |i reply].
  - simpl. unfold handleCommodityClick.
    destruct (sentimentData (ui m) !! _) eqn:Hk.
    + simpl. intros Hl. destruct (Hm Hl) as (i & c' & ctx & Hi).
      by exists i, c', ctx.
    + intros _. apply foreground_pending_call.
  - simpl. case_decide; [done|]. simpl. intros Hl.
    destruct (Hm Hl) as (i & c & ctx' & Hi). exists i, c, ctx'. simpl.
    pose proof (lookup_lt_Some _ _ _ Hi) as Hlt.
    rewrite list_lookup_insert_ne by lia. by rewrite lookup_app_l.
  - simpl. intros Hl. destruct (Hm Hl) as (i & c & ctx & Hi). by exists i, c, ctx.
  - simpl. destruct (selectedCommodity (ui m)) as [c|].
    + intros _. apply foreground_pending_call.
    + done.
  - simpl. intros Hl. destruct (Hm Hl) as (i & c & ctx & Hi). by exists i, c, ctx.
  - rewrite tick_step. simpl. intros Hl.
    destruct (Hm Hl) as (i & c & ctx & Hi). exists i, c, ctx. simpl.
    rewrite lookup_app_l; [done|]. by eapply lookup_lt_Some.
  - destruct (tasks m !! i) as [[t|]|] eqn:Ht;
      [|rewrite step_settle_idle; auto..].
    destruct t as [c ctx [|]|ctx c [|c' rest]]; simpl; rewrite Ht; simpl;
      rewrite ?fetchSentiment_resume_loading; try done;
      intros Hl; destruct (Hm Hl) as (j & c0 & ctx0 & Hj);
      exists j, c0, ctx0; simpl;
      (rewrite list_lookup_insert_ne; [done|]); intros ->; congruence.
Qed.

(** X9.  Whatever events the component receives after mounting, the
    spinner is on only while some foreground call is still waiting for its
    reply: [loading] cannot stay true once every call has settled. *)
Theorem loading_implies_foreground_pending (es : list Event) :
  loading (ui (fst (run es (fst mount)))) = true →
  foreground_pending (fst (run es (fst mount))).
Proof.
  assert (∀ m, (loading (ui m) = true → foreground_pending m) →
               loading (ui (fst (run es m))) = true →
               foreground_pending (fst (run es m))) as Hrun.
  { induction es as [|e es IH]; intros m Hm; [done|].
    rewrite run_cons. cbn [fst]. by apply IH, step_loading_pending. }
  apply Hrun. done.
Qed.

Lemma loading_implies_foreground_pending_witness :
  foreground_pending (fst (run [ClickCommodity "Maize"; Tick] (fst mount))).
Proof.
  apply (loading_implies_foreground_pending [ClickCommodity "Maize"; Tick]).
  reflexivity.
Defined.

(** X10.  The converse fails, because [loading] is one flag for all
    foreground calls: when a second commodity is opened while the call of
    a first is still out, the settlement of the first call turns the
    spinner off although the call of the second, selected, commodity is
    still waiting; and if the first call failed, its message is shown for
    the second commodity. *)
Theorem earlier_call_clears_loading
    (m : Machine) (a b : string) (reply : JsError + GenerateContentResponse) :
  sentimentData (ui m) !! cacheKey a (context (ui m)) = None →
  sentimentData (ui m) !! cacheKey b (context (ui m)) = None →
  let n := length (tasks m) in
  let m3 := fst (run [ClickCommodity a; ClickBack; ClickCommodity b] m) in
  let m4 := fst (step (Settle n reply) m3) in
  (loading (ui m3) = true ∧ selectedCommodity (ui m3) = Some b)
  ∧ selectedCommodity (ui m4) = Some b
  ∧ tasks m4 !! S n = Some (Some (Fetching b (context (ui m)) false))
  ∧ loading (ui m4) = false
  ∧ (∀ err, getCommoditySentiment a (context (ui m)) reply = inl err →
            error (ui m4) = Some (errorMessage err)).
Proof.
  intros Ha Hb n m3 m4.
  assert (m3 = {| ui := fetchSentiment_begin false
                          (setExpandedDriver None
                             (setSelectedCommodity (Some b)
                                (setSelectedCommodity None
                                   (fetchSentiment_begin false
                                      (setExpandedDriver None
                                         (setSelectedCommodity (Some a)
                                            (ui m)))))));
                  tasks := (tasks m ++ [Some (Fetching a (context (ui m)) false)])
                           ++ [Some (Fetching b (context (ui m)) false)] |})
    as Hm3.
  { subst m3. rewrite !run_cons. cbn [run fst].
    rewrite (click_miss_machine a) by done. cbn [step fst].
    unfold handleCommodityClick. simpl. by rewrite Hb. }
  assert (tasks m3 !! n = Some (Some (Fetching a (context (ui m)) false)))
    as Hn.
  { rewrite Hm3. cbn [tasks]. rewrite lookup_app_l.
    - by apply list_lookup_middle.
    - rewrite length_app. simpl. subst n. lia. }
  split; [by rewrite Hm3|].
  assert (m4 = {| ui := fetchSentiment_resume a (context (ui m)) false
                          (getCommoditySentiment a (context (ui m)) reply)
                          (ui m3);
                  tasks := <[n := None]> (tasks m3) |}) as ->
    by (subst m4; simpl; by rewrite Hn).
  cbn [ui tasks]. split.
  { etrans; [apply fetchSentiment_resume_cells|]. by rewrite Hm3. }
  split.
  { rewrite list_lookup_insert_ne by (subst n; lia).
    rewrite Hm3. cbn [tasks]. apply list_lookup_middle.
    rewrite length_app. simpl. subst n. lia. }
  split; [by rewrite fetchSentiment_resume_loading|].
  intros err Hr. by rewrite Hr.
Qed.

Lemma earlier_call_clears_loading_witness :
  let m3 := fst (run [ClickCommodity "Maize"; ClickBack; ClickCommodity "Chana"]
                     (fst mount)) in
  loading (ui m3) = true
  ∧ loading (ui (fst (step (Settle 1 (inl (mkError None))) m3))) = false.
Proof.
  intros m3.
  destruct (earlier_call_clears_loading (fst mount) "Maize" "Chana"
              (inl (mkError None)) eq_refl eq_refl)
    as ((Hl & _) & _ & _ & Hl' & _).
  split; [exact Hl|exact Hl'].
Defined.

End ReachableStates.

Section WarmUpResults.

Implicit Types (m : Machine) (replies : list (JsError + GenerateContentResponse)).

(** X11.  Two calls share a cache slot only when they are for the same
    commodity under the same context, also for commodity names that
    contain "-" or end like a context name. *)
Theorem cacheKey_separates (c1 c2 : string) (ctx1 ctx2 : Context) :
  cacheKey c1 ctx1 = cacheKey c2 ctx2 ↔ c1 = c2 ∧ ctx1 = ctx2.
Proof.
  split; [apply cacheKey_inj|]. by intros [-> ->].
Qed.

Lemma cacheKey_separates_witness :
  cacheKey "Chana-India" Global ≠ cacheKey "Chana" India.
Proof.
  intros H. apply cacheKey_separates in H as [H _]. discriminate H.
Defined.

(** A warm-up writes only keys of its own context and of its own
    subjects. *)
Lemma warm_cache_other ctx cs replies cache k :
  (∀ c, c ∈ cs → k ≠ cacheKey c ctx) →
  warm_cache ctx cs replies cache !! k = cache !! k.
Proof.
  revert replies cache. induction cs as [|c cs IH]; intros [|r replies] cache Hk;
    try done.
  cbn [warm_cache]. rewrite IH by (intros c' Hc'; apply Hk; by right).
  destruct (getCommoditySentiment c ctx r); [done|].
  rewrite lookup_insert_ne; [done|]. intros Heq. by eapply Hk; [left|].
Qed.

Lemma warm_cache_lookup ctx cs :
  NoDup cs →
  ∀ replies cache k c r,
    cs !! k = Some c →
    replies !! k = Some r →
    warm_cache ctx cs replies cache !! cacheKey c ctx
    = match getCommoditySentiment c ctx r with
      | inr data => Some data
      | inl _ => cache !! cacheKey c ctx
      end.
Proof.
  induction 1 as [|c0 cs Hnotin Hnodup IH]; intros replies cache k c r Hc Hr;
    [done|].
  destruct replies as [|r0 replies]; [done|]. cbn [warm_cache].
  destruct k as [|k]; simpl in Hc, Hr.
  - injection Hc as ->. injection Hr as ->.
    rewrite warm_cache_other.
    + destruct (getCommoditySentiment c ctx r); [done|apply lookup_insert_eq].
    + intros c' Hc' [-> _]%cacheKey_inj. done.
  - rewrite (IH _ _ k c r Hc Hr).
    destruct (getCommoditySentiment c ctx r); [|done].
    destruct (getCommoditySentiment c0 ctx r0); [done|].
    rewrite lookup_insert_ne; [done|].
    intros [-> _]%cacheKey_inj. apply Hnotin. by eapply list_elem_of_lookup_2.
Qed.

(** The loop of [initialFetch], fed the settlements of its own calls,
    leaves the cache described by [warm_cache], and touches neither the
    context nor the selection. *)
Lemma initialFetch_loop_cache ctx i cs :
  ∀ replies m,
    i < length (tasks m) →
    length replies = length cs →
    let m' := fst (run (Settle i <$> replies)
                       (fst (initialFetch_loop ctx cs i m))) in
    sentimentData (ui m') = warm_cache ctx cs replies (sentimentData (ui m))
    ∧ context (ui m') = context (ui m)
    ∧ selectedCommodity (ui m') = selectedCommodity (ui m).
Proof.
  induction cs as [|c rest IH]; intros [|r rs] m Hi Hlen; try done.
  cbn [initialFetch_loop fst snd fmap list_fmap].
  rewrite run_cons. cbn [fst snd].
  erewrite step_settle_warming by (by apply list_lookup_insert_eq).
  cbv zeta. cbn [fst snd ui tasks].
  match goal with
  | |- context [initialFetch_loop ctx rest i ?m1] =>
      destruct (IH rs m1) as (Hcache & Hctx & Hsel)
  end.
  { simpl. by rewrite length_insert. }
  { by injection Hlen. }
  cbn [ui] in Hcache, Hctx, Hsel.
  rewrite Hcache, Hctx, Hsel. cbn [warm_cache].
  rewrite fetchSentiment_resume_cache.
  split; [by destruct (getCommoditySentiment c ctx r)|].
  by destruct (getCommoditySentiment c ctx r).
Qed.

End WarmUpResults.

Section Interleavings.

(** X13.  A warm-up is not disturbed by what happens around it.  Whatever
    events are delivered between the replies to its calls (clicks, ticks,
    replies to other calls, even another context switch), the warm-up
    started by a context switch requests the tracked commodities in list
    order, one call at a time, all under the context it was started
    with. *)
Theorem warm_up_undisturbed
    (m : Machine) (ctx : Context)
    (segs : list (list Event * (JsError + GenerateContentResponse))) :
  ctx ≠ context (ui m) →
  length segs = length COMMODITIES →
  Forall (fun sr => Forall (fun e => settles (length (tasks m)) e = false) sr.1)
    segs →
  let own := filter (fun o => obs_task o = length (tasks m))
               (snd (run (ClickContext ctx
                          :: interleaved (length (tasks m)) segs) m)) in
  own = sequential_trace (length (tasks m)) ctx COMMODITIES (snd <$> segs)
  ∧ issued_commodities own = COMMODITIES.
Proof.
  intros Hctx Hlen Hsegs own.
  assert (own = sequential_trace (length (tasks m)) ctx COMMODITIES
                  (snd <$> segs)) as Hown
    by (by apply context_switch_interleaved).
  split; [done|]. rewrite Hown. apply sequential_trace_issued.
  by rewrite length_fmap.
Qed.

Lemma warm_up_undisturbed_witness :
  let ok := inr (mkResponse NoText None)
            : JsError + GenerateContentResponse in
  let segs := [([Tick], ok);
               ([ClickContext India], inl (mkError None));
               ([], ok);
               ([ClickCommodity "Wheat"; Settle 0 ok], ok);
               ([ClickBack], ok)] in
  issued_commodities
    (filter (fun o => obs_task o = 1)
       (snd (run (ClickContext Global :: interleaved 1 segs) (fst mount))))
  = COMMODITIES.
Proof.
  intros ok segs.
  apply (warm_up_undisturbed (fst mount) Global segs);
    [discriminate|reflexivity|].
  repeat constructor.
Defined.

End Interleavings.

Section BoundedCache.

Implicit Types (m : Machine) (e : Event) (es : list Event).

Lemma cacheKey_tracked c ctx : c ∈ COMMODITIES → cacheKey c ctx ∈ tracked_keys.
Proof.
  intros Hc. unfold tracked_keys. rewrite elem_of_list_to_set.
  apply list_elem_of_In, in_flat_map. exists c.
  split; [by apply list_elem_of_In|]. destruct ctx; simpl; auto.
Qed.

Lemma tracked_keys_size : size tracked_keys = 10.
Proof.
  unfold tracked_keys. rewrite size_list_to_set; [done|].
  apply (bool_decide_unpack _). vm_compute. exact I.
Qed.

Lemma tick_commodity_tracked (cursor : nat) :
  template_of (COMMODITIES !! nextIndex cursor) ∈ COMMODITIES.
Proof.
  pose proof (nextIndex_in_range cursor) as Hlt.
  apply lookup_lt_is_Some_2 in Hlt as [c Hc]. rewrite Hc. simpl.
  by eapply list_elem_of_lookup_2.
Qed.

Lemma tracked_dispatch t :
  tracked t → (task_dispatch t).1.1 ∈ COMMODITIES.
Proof. destruct t as [c ctx p|ctx c rest]; simpl; [done|by intros [? _]]. Qed.

Lemma step_tracked_state e m :
  offered e → tracked_state m → tracked_state (fst (step e m)).
Proof.
  intros He Hm. pose proof Hm as (Hcache & Htasks & Hsel).
  assert (∀ c ctx p s, c ∈ COMMODITIES →
            from_option (fun c => c ∈ COMMODITIES) True (selectedCommodity s) →
            dom (sentimentData s) ⊆ tracked_keys →
            tracked_state (fst (call_fetchSentiment c ctx p
                                  {| ui := s; tasks := tasks m |}))) as Hcall.
  { intros c ctx p s Hc Hs Hd. split; [|split].
    - by destruct p.
    - simpl. apply Forall_app. split; [done|]. by constructor.
    - by destruct p. }
  destruct e as [c|ctx| | |idx| |i reply].
  - simpl in He. simpl. unfold handleCommodityClick.
    destruct (sentimentData (ui m) !! _); [by split|].
    by apply Hcall.
  - simpl. case_decide; [by split|]. split; [done|]. split; [|done].
    simpl. apply Forall_insert.
    + apply Forall_app. split; [done|]. by constructor.
    + simpl. split; repeat constructor.
  - by split.
  - simpl. destruct (selectedCommodity (ui m)) as [c|] eqn:Hc; [|exact Hm].
    replace m with {| ui := ui m; tasks := tasks m |} by (by destruct m).
    apply Hcall; [done| |done]. by rewrite Hc.
  - by split.
  - change (step Tick m) with (tick m). unfold tick.
    apply Hcall; [apply tick_commodity_tracked|done..].
  - destruct (tasks m !! i) as [[t|]|] eqn:Ht;
      [|rewrite step_settle_idle by auto; by split..].
    assert (tracked t) as Htr.
    { rewrite Forall_lookup in Htasks. by apply (Htasks i (Some t)). }
    split; [|split].
    + rewrite (step_settle_cache _ _ _ _ Ht).
      destruct (getCommoditySentiment _ _ reply); [done|].
      rewrite dom_insert.
      pose proof (cacheKey_tracked _ (task_dispatch t).1.2
                    (tracked_dispatch t Htr)) as Hkey.
      apply union_subseteq. split; [by apply singleton_subseteq_l|done].
    + destruct t as [c ctx p|ctx c [|c' rest]]; simpl; rewrite Ht; simpl.
      * by apply Forall_insert.
      * by apply Forall_insert.
      * destruct Htr as [_ Hrest]. apply Forall_cons in Hrest as [Hc' Hrest].
        by apply Forall_insert.
    + assert (selectedCommodity (ui (fst (step (Settle i reply) m)))
              = selectedCommodity (ui m)) as ->; [|done].
      rewrite (step_settle _ _ _ _ Ht). cbv zeta.
      destruct t as [c ctx p|ctx c [|c' rest]];
        apply fetchSentiment_resume_cells.
Qed.

(** X14.  The cache is bounded.  As long as commodity clicks come from the
    cards of the tracked commodities, every key in the cache is the key of
    a tracked commodity under one of the two contexts, so the cache never
    holds more than ten entries, however long the component runs. *)
Theorem cache_bounded (es : list Event) :
  Forall offered es →
  dom (sentimentData (ui (fst (run es (fst mount))))) ⊆ tracked_keys
  ∧ (size (sentimentData (ui (fst (run es (fst mount))))) ≤ 10)%nat.
Proof.
  intros Hes.
  assert (∀ m, tracked_state m → tracked_state (fst (run es m))) as Hrun.
  { induction Hes as [|e es He Hes IH]; intros m Hm; [done|].
    rewrite run_cons. cbn [fst]. by apply IH, step_tracked_state. }
  destruct (Hrun (fst mount)) as (Hdom & _).
  { split; [|split]; [|simpl; repeat constructor|done].
    simpl. rewrite dom_empty. apply empty_subseteq. }
  split; [done|].
  rewrite <-size_dom, <-tracked_keys_size. by apply subseteq_size.
Qed.

Lemma cache_bounded_witness :
  (size (sentimentData
           (ui (fst (run [ClickCommodity "Sugar";
                          Settle 1 (inr (mkResponse NoText None)); Tick]
                         (fst mount))))) ≤ 10)%nat.
Proof.
  apply (cache_bounded [ClickCommodity "Sugar";
                        Settle 1 (inr (mkResponse NoText None)); Tick]).
  repeat constructor.
Defined.

End BoundedCache.

(* ===================================================================== *)
(** * Properties of the read side                                         *)
(* ===================================================================== *)

Section ViewFacts.

Implicit Types (s : AppState) (name : string).

Lemma read_field_throws field v :
  read_field field v = inl TypeError ↔ nullish v = true.
Proof. destruct v as [[]|]; simpl; split; try done. Qed.

Lemma tickerScore_throws s name :
  tickerScore s name = inl TypeError ↔
  ∃ data, sentimentData s !! cacheKey name (context s) = Some data
          ∧ nullish (obj_get "current" data) = true.
Proof.
  unfold tickerScore.
  destruct (sentimentData s !! cacheKey name (context s)) as [data|].
  - destruct (read_field "score" (obj_get "current" data)) as [[]|v] eqn:Hr.
    + apply read_field_throws in Hr. split; [|done]. by exists data.
    + split; [done|]. intros (data' & [= <-] & Hn).
      apply (read_field_throws "score") in Hn. congruence.
  - split; [done|]. by intros (data & [=] & _).
Qed.

Lemma tickerScores_throws_iff s (names : list string) :
  tickerScores s names = inl TypeError ↔
  ∃ name data,
    name ∈ names
    ∧ sentimentData s !! cacheKey name (context s) = Some data
    ∧ nullish (obj_get "current" data) = true.
Proof.
  induction names as [|name names IH]; simpl.
  - split; [done|]. intros (name & data & Hin & _). by apply elem_of_nil in Hin.
  - destruct (tickerScore s name) as [[]|v] eqn:Hs.
    + split; [|done]. intros _.
      apply tickerScore_throws in Hs as (data & Hk & Hn).
      exists name, data. split; [by left|done].
    + destruct (tickerScores s names) as [[]|vs].
      * split; [|done]. intros _.
        destruct (proj1 IH eq_refl) as (name' & data & Hin & Hk & Hn).
        exists name', data. split; [by right|done].
      * split; [done|]. intros (name' & data & Hin & Hk & Hn).
        apply elem_of_cons in Hin as [->|Hin].
        -- assert (tickerScore s name = inl TypeError) as Ht
             by (apply tickerScore_throws; by exists data).
           congruence.
        -- assert (inr vs = inl TypeError :> Thrown + list json) as Habs
             by (apply IH; by exists name', data).
           discriminate Habs.
Qed.

(** X15.  When the ticker throws.  Evaluating the ticker items throws a
    [TypeError] exactly when, for some commodity of the list, the cache has
    an entry under the displayed context whose [current] is missing or
    null; a commodity without an entry gets its placeholder and never
    throws. *)
Theorem tickerScores_throws (s : AppState) (names : list string) :
  (tickerScores s names = inl TypeError ↔
   ∃ name data,
     name ∈ names
     ∧ sentimentData s !! cacheKey name (context s) = Some data
     ∧ nullish (obj_get "current" data) = true)
  ∧ (∀ name, sentimentData s !! cacheKey name (context s) = None →
       tickerScore s name = inr (JNumber (placeholderScore name))).
Proof.
  split; [apply tickerScores_throws_iff|].
  intros name Hk. unfold tickerScore. by rewrite Hk.
Qed.

Lemma tickerScores_throws_witness :
  tickerScore initialState "Chana" = inr (JNumber (-45)%Q).
Proof.
  apply (tickerScores_throws initialState COMMODITIES). reflexivity.
Defined.

(** X16.  A successful reply whose JSON has no [current] object breaks the
    read side.  When a call for a commodity under the displayed context
    succeeds with a response that has no text, or whose parsed text has no
    [current] field, the stored entry makes the ticker item of that
    commodity and the score of its card throw a [TypeError]. *)
Theorem reply_without_current_breaks_ticker
    (s : AppState) (commodity : string) (isPrefetch : bool)
    (response : GenerateContentResponse) (data : json) (names : list string) :
  parse_text (text response) = inr data →
  nullish (obj_get "current" (ownProps data)) = true →
  commodity ∈ names →
  let s' := fetchSentiment_resume commodity (context s) isPrefetch
              (getCommoditySentiment commodity (context s) (inr response)) s in
  tickerScore s' commodity = inl TypeError
  ∧ cardScore s' commodity = inl TypeError
  ∧ tickerScores s' names = inl TypeError.
Proof.
  intros Hp Hn Hin s'.
  assert (∃ result,
            sentimentData s' !! cacheKey commodity (context s') = Some result
            ∧ nullish (obj_get "current" result) = true) as (result & Hk & Hr).
  { subst s'. unfold getCommoditySentiment. rewrite Hp. eexists. split.
    - rewrite (proj1 (fetchSentiment_resume_cells _ _ _ _ _)).
      rewrite fetchSentiment_resume_cache. apply lookup_insert_eq.
    - by rewrite obj_get_set_ne. }
  assert (tickerScore s' commodity = inl TypeError) as Ht
    by (apply tickerScore_throws; by exists result).
  split; [done|]. split.
  - unfold cardScore. rewrite Hk. by apply read_field_throws.
  - apply tickerScores_throws_iff. by exists commodity, result.
Qed.

Lemma reply_without_current_breaks_ticker_witness :
  tickerScores
    (fetchSentiment_resume "Maize" India true
       (getCommoditySentiment "Maize" India (inr (mkResponse NoText None)))
       initialState) COMMODITIES
  = inl TypeError.
Proof.
  apply (reply_without_current_breaks_ticker initialState "Maize" true
           (mkResponse NoText None) (JObject []) COMMODITIES);
    [reflexivity|reflexivity|repeat constructor].
Defined.

(** Comparisons on numbers, as propositions. *)
Lemma gt_spec x y : gt x y = true ↔ (y < x)%Q.
Proof.
  unfold gt. rewrite negb_true_iff, <-not_true_iff_false, Qle_bool_iff.
  split; [apply Qnot_le_lt|apply Qlt_not_le].
Qed.

Lemma lt_spec x y : lt x y = true ↔ (x < y)%Q.
Proof. apply gt_spec. Qed.

(** X17.  The ticker dot, the card badge and the ticker's fallback label
    always show the same band for a score: bullish and emerald exactly
    above 20, bearish and red exactly below -20, neutral and amber from
    -20 to 20, both ends included. *)
Theorem bands_agree (score : Q) :
  (fallbackLabel score = "Bullish" ↔ (20 < score)%Q)
  ∧ (fallbackLabel score = "Bearish" ↔ (score < -20)%Q)
  ∧ (fallbackLabel score = "Neutral" ↔ (-20 <= score)%Q ∧ (score <= 20)%Q)
  ∧ (colorClass score = "bg-emerald-500" ↔ fallbackLabel score = "Bullish")
  ∧ (colorClass score = "bg-red-500" ↔ fallbackLabel score = "Bearish")
  ∧ (colorClass score = "bg-amber-500" ↔ fallbackLabel score = "Neutral")
  ∧ (badgeClass score = "bg-emerald-500 text-white"
     ↔ colorClass score = "bg-emerald-500")
  ∧ (badgeClass score = "bg-red-500 text-white"
     ↔ colorClass score = "bg-red-500")
  ∧ (badgeClass score = "bg-amber-500 text-white"
     ↔ colorClass score = "bg-amber-500").
Proof.
  unfold fallbackLabel, colorClass, badgeClass.
  destruct (gt score 20) eqn:Hgt; [|destruct (lt score (-20)) eqn:Hlt].
  - apply gt_spec in Hgt. repeat split; try done.
    + intros H. exfalso. apply (Qlt_irrefl score).
      eapply Qlt_trans; [exact H|]. eapply Qlt_trans; [|exact Hgt]. reflexivity.
    + intros [_ H]. exfalso. by apply (Qlt_not_le _ _ Hgt).
  - apply lt_spec in Hlt. apply not_true_iff_false in Hgt.
    rewrite gt_spec in Hgt. repeat split; try done.
    intros [H _]. exfalso. by apply (Qlt_not_le _ _ Hlt).
  - apply not_true_iff_false in Hgt, Hlt. rewrite gt_spec in Hgt.
    rewrite lt_spec in Hlt. repeat split; try done; by apply Qnot_lt_le.
Qed.

Lemma bands_agree_witness :
  fallbackLabel 20%Q = "Neutral" ∧ colorClass 20%Q = "bg-amber-500".
Proof.
  destruct (bands_agree 20%Q) as (_ & _ & Hn & _ & _ & Ha & _).
  assert (fallbackLabel 20%Q = "Neutral") as Hl.
  { apply Hn. split; discriminate. }
  split; [exact Hl|]. apply Ha. exact Hl.
Defined.

End ViewFacts.

Section MeterFacts.

(** Decide every comparison in the goal, keeping both outcomes as
    inequalities on integers. *)
Ltac compare_all :=
  unfold getColor, lt;
  repeat match goal with
    | |- context [Qle_bool ?a ?b] =>
        let H := fresh "H" in
        destruct (Qle_bool a b) eqn:H;
        [apply Qle_bool_iff in H
        |apply not_true_iff_false in H; rewrite Qle_bool_iff in H]
    end;
  simpl negb; cbv iota.

(** X18.  The gauge colour of [SentimentMeter] is symmetric and ordered:
    the colour of [-s] is the opposite colour of [s] on the scale from red
    to green, a higher score never gets a colour further towards red, and
    the gauge is slate exactly for scores from -10 to 10, both ends
    included. *)
Theorem getColor_symmetric_ordered (s t : Q) :
  getColor (- s) = mirrorColor (getColor s)
  ∧ ((s <= t)%Q → (colorRank (getColor s) ≤ colorRank (getColor t))%nat)
  ∧ (getColor s = "#94a3b8" ↔ (-10 <= s)%Q ∧ (s <= 10)%Q).
Proof.
  split; [|split].
  - compare_all; try reflexivity; exfalso; lra.
  - intros Hst. compare_all; try (vm_compute; lia); exfalso; lra.
  - compare_all; (split; [intros Heq|intros [? ?]]);
      try discriminate Heq; try reflexivity; try (split; lra); exfalso; lra.
Qed.

Lemma getColor_symmetric_ordered_witness :
  (colorRank (getColor (-50)%Q) ≤ colorRank (getColor 50%Q))%nat
  ∧ getColor (-50)%Q = "#f87171".
Proof.
  split; [|reflexivity].
  apply (getColor_symmetric_ordered (-50)%Q 50%Q). discriminate.
Defined.

End MeterFacts.

Section ReplyHandling.

(** X19.  A response whose text is not JSON counts as a failed call, even
    if it carried grounding sources: [getCommoditySentiment] throws the
    parser's error and nothing is cached.  A non-foreground call, taken as
    a whole from issue to settlement, then changes one cell only: it sets
    the error state to null, by the [setError(null)] it runs before the
    await; every other cell is as before.  A foreground call, taken as a
    whole, leaves the cache as it was, sets the error state to the message
    computed from the parser's message and ends with [loading] false. *)
Theorem malformed_text_is_failure
    (commodity : string) (ctx : Context) (response : GenerateContentResponse)
    (msg : string) (s : AppState) :
  text response = BadText msg →
  let r := getCommoditySentiment commodity ctx (inr response) in
  let background := fetchSentiment_resume commodity ctx true r
                      (fetchSentiment_begin true s) in
  let foreground := fetchSentiment_resume commodity ctx false r
                      (fetchSentiment_begin false s) in
  r = inl (mkError (Some msg))
  ∧ background = setError None s
  ∧ error background = None
  ∧ sentimentData foreground = sentimentData s
  ∧ error foreground = Some (errorMessage (mkError (Some msg)))
  ∧ loading foreground = false
  ∧ (¬ mentions (mkError (Some msg)) "API_KEY" →
     ¬ mentions (mkError (Some msg)) "network" →
     ¬ mentions (mkError (Some msg)) "fetch" →
     ¬ mentions (mkError (Some msg)) "429" →
     error foreground = Some ("Error: " +:+ msg)).
Proof.
  intros Ht r background foreground.
  assert (r = inl (mkError (Some msg))) as Hr
    by (subst r; unfold getCommoditySentiment; by rewrite Ht).
  subst background foreground. rewrite Hr.
  split; [done|].
  split; [apply fetchSentiment_resume_prefetch_failure|].
  split; [done|].
  rewrite fetchSentiment_resume_cache, fetchSentiment_resume_error,
    fetchSentiment_resume_loading.
  split; [by destruct s|]. split; [done|]. split; [done|].
  rewrite <-!message_includes_not_mentions. intros Ha Hn Hf Hr'.
  unfold errorMessage. by rewrite Ha, Hn, Hf, Hr'.
Qed.

Lemma malformed_text_is_failure_witness :
  let response :=
    mkResponse (BadText "Unexpected end of JSON input")
      (Some [mkCandidate (Some (mkMetadata (Some [mkChunk None])))]) in
  let shown := setError (Some "Rate limit exceeded. Please wait.") initialState in
  error
    (fetchSentiment_resume "Wheat" India false
       (getCommoditySentiment "Wheat" India (inr response))
       (fetchSentiment_begin false shown))
  = Some "Error: Unexpected end of JSON input"
  ∧ error
      (fetchSentiment_resume "Wheat" India true
         (getCommoditySentiment "Wheat" India (inr response))
         (fetchSentiment_begin true shown))
    = None.
Proof.
  intros response shown.
  destruct (malformed_text_is_failure "Wheat" India response
              "Unexpected end of JSON input" shown eq_refl)
    as (_ & _ & Hbg & _ & _ & _ & Hfg).
  split; [|exact Hbg].
  apply Hfg; intros H; apply message_includes_mentions in H; discriminate H.
Defined.

(** X20.  A context switch re-keys the detail view without a foreground
    call.  After switching, the selection is kept and the detail view
    shows what the cache holds for the selected commodity under the new
    context, which may be nothing; the only call issued is the first call
    of the warm-up, a non-foreground one, so the spinner is not turned
    on. *)
Theorem context_switch_rekeys_view (m : Machine) (ctx : Context) :
  ctx ≠ context (ui m) →
  let m' := fst (step (ClickContext ctx) m) in
  selectedCommodity (ui m') = selectedCommodity (ui m)
  ∧ currentData (ui m')
    = match selectedCommodity (ui m) with
      | Some c => sentimentData (ui m) !! cacheKey c ctx
      | None => None
      end
  ∧ loading (ui m') = loading (ui m)
  ∧ snd (step (ClickContext ctx) m) = [Issued (length (tasks m)) "Wheat" ctx true]
  ∧ (∀ c, selectedCommodity (ui m) = Some c →
          sentimentData (ui m) !! cacheKey c ctx = None →
          currentData (ui m') = None).
Proof.
  intros Hctx m'. subst m'. simpl. rewrite decide_False by done. simpl.
  repeat split; try done.
  intros c Hc Hk. unfold currentData. simpl. by rewrite Hc.
Qed.

Lemma context_switch_rekeys_view_witness :
  let m := fst (run [ClickCommodity "Sugar";
                     Settle 1 (inr (mkResponse NoText None))] (fst mount)) in
  currentData (ui m) = Some [("sources", JArray [])]
  ∧ currentData (ui (fst (step (ClickContext Global) m))) = None.
Proof.
  intros m. split; [vm_compute; reflexivity|].
  destruct (context_switch_rekeys_view m Global) as (_ & _ & _ & _ & Hnone);
    [discriminate|].
  apply (Hnone "Sugar"); vm_compute; reflexivity.
Defined.

End ReplyHandling.

Section WarmUpCache.

Implicit Types (m : Machine) (e : Event) (es : list Event) (s : AppState).

Lemma step_cache_conforms e m :
  cache_conforms (ui m) →
  replies_conform [e] →
  cache_conforms (ui (fst (step e m))).
Proof.
  intros Hm He k data.
  destruct (step_cache e m) as [->|(i & reply & t & d & -> & _ & Hr & ->)];
    [apply Hm|].
  apply Forall_cons in He as [He _].
  rewrite lookup_insert. case_decide; [|apply Hm].
  intros [= <-]. by eapply He.
Qed.

Lemma run_cache_conforms es m :
  cache_conforms (ui m) →
  replies_conform es →
  cache_conforms (ui (fst (run es m))).
Proof.
  revert m. induction es as [|e es IH]; intros m Hm Hes; [done|].
  apply Forall_cons in Hes as [He Hes].
  rewrite run_cons. cbn [fst]. apply IH; [|done].
  apply step_cache_conforms; [done|]. by constructor.
Qed.

(** On a cache whose entries follow the schema the ticker does not
    throw. *)
Lemma cache_conforms_ticker s (names : list string) :
  cache_conforms s → tickerScores s names ≠ inl TypeError.
Proof.
  intros Hs Hthrow.
  apply tickerScores_throws_iff in Hthrow as (name & data & _ & Hk & Hn).
  apply Hs in Hk. unfold schema_ok in Hk.
  destruct (obj_get "current" data) as [[]|]; simpl in Hn; try done;
    rewrite ?andb_false_r in Hk; simpl in Hk;
    by rewrite ?andb_false_r in Hk.
Qed.

(** X12.  What a warm-up leaves in the cache, for replies that follow the
    response schema.  Let every entry of the cache follow the schema, and
    let every successful reply to the warm-up do so too.  Then every state
    of the run (the context switch followed by the five replies) has only
    entries that follow the schema, and the ticker can be evaluated in each.
    At the end the entry of each tracked commodity under the new context is
    the result of its own call if that call succeeded, and is what it was
    before if that call failed; the entries of the other context are
    untouched.  When all five calls succeeded, a click on any tracked
    commodity issues no call. *)
Theorem warm_up_fills_cache
    (m : Machine) (ctx : Context)
    (replies : list (JsError + GenerateContentResponse)) :
  ctx ≠ context (ui m) →
  length replies = length COMMODITIES →
  cache_conforms (ui m) →
  Forall reply_conforms replies →
  let events := ClickContext ctx :: (Settle (length (tasks m)) <$> replies) in
  let m' := fst (run events m) in
  (∀ j, cache_conforms (ui (fst (run (take j events) m)))
        ∧ tickerScores (ui (fst (run (take j events) m))) COMMODITIES
          ≠ inl TypeError)
  ∧ context (ui m') = ctx
  ∧ (∀ k c r, COMMODITIES !! k = Some c → replies !! k = Some r →
       sentimentData (ui m') !! cacheKey c ctx
       = match getCommoditySentiment c ctx r with
         | inr data => Some data
         | inl _ => sentimentData (ui m) !! cacheKey c ctx
         end)
  ∧ (∀ c ctx', ctx' ≠ ctx →
       sentimentData (ui m') !! cacheKey c ctx'
       = sentimentData (ui m) !! cacheKey c ctx')
  ∧ ((∀ k c r, COMMODITIES !! k = Some c → replies !! k = Some r →
        is_ok (getCommoditySentiment c ctx r) = true) →
     ∀ c, c ∈ COMMODITIES → snd (step (ClickCommodity c) m') = []).
Proof.
  intros Hctx Hlen Hm Hreplies events m'.
  split.
  { intros j.
    assert (cache_conforms (ui (fst (run (take j events) m)))) as Hj.
    { apply run_cache_conforms; [done|]. apply Forall_take.
      subst events. constructor; [done|].
      apply Forall_fmap. eapply Forall_impl; [exact Hreplies|]. done. }
    split; [done|]. by apply cache_conforms_ticker. }
  assert (sentimentData (ui m')
          = warm_cache ctx COMMODITIES replies (sentimentData (ui m))
          ∧ context (ui m') = ctx) as [Hcache Hctx'].
  { subst m' events. rewrite run_cons. cbn [fst snd].
    assert (step (ClickContext ctx) m
            = initialFetch {| ui := setContext ctx (ui m); tasks := tasks m |})
      as -> by (simpl; by rewrite decide_False).
    unfold initialFetch. cbn [ui tasks context setContext].
    match goal with
    | |- context [initialFetch_loop ctx COMMODITIES ?i ?m1] =>
        destruct (initialFetch_loop_cache ctx i COMMODITIES replies m1)
          as (Hc & Hx & _)
    end.
    { cbn [tasks]. rewrite length_app. simpl. lia. }
    { done. }
    cbv zeta in Hc, Hx. by rewrite Hc, Hx. }
  assert (∀ k c r, COMMODITIES !! k = Some c → replies !! k = Some r →
            sentimentData (ui m') !! cacheKey c ctx
            = match getCommoditySentiment c ctx r with
              | inr data => Some data
              | inl _ => sentimentData (ui m) !! cacheKey c ctx
              end) as Hentries.
  { intros k c r Hc Hr. rewrite Hcache.
    by apply (warm_cache_lookup ctx COMMODITIES COMMODITIES_NoDup) with k. }
  split; [done|]. split; [done|]. split.
  - intros c ctx' Hne. rewrite Hcache. apply warm_cache_other.
    intros c' _ [_ ->]%cacheKey_inj. done.
  - intros Hok c Hc.
    apply list_elem_of_lookup in Hc as [k Hk].
    assert (is_Some (replies !! k)) as [r Hr].
    { apply lookup_lt_is_Some. rewrite Hlen. by eapply lookup_lt_Some. }
    specialize (Hentries k c r Hk Hr). specialize (Hok k c r Hk Hr).
    destruct (getCommoditySentiment c ctx r) as [err|data]; [done|].
    eapply handleCommodityClick_hit. rewrite Hctx'. exact Hentries.
Qed.

Lemma warm_up_fills_cache_witness :
  let ok := inr (mkResponse (JsonText (sample_data 10 20 (-30))) None)
            : JsError + GenerateContentResponse in
  let m' := fst (run (ClickContext Global
                      :: (Settle 1 <$> [ok; inl (mkError None); ok; ok; ok]))
                     (fst mount)) in
  horizon_score "current" <$> (sentimentData (ui m') !! cacheKey "Maize" Global)
  = Some (Some 20%Q)
  ∧ sentimentData (ui m') !! cacheKey "Cashew" Global = None
  ∧ tickerScores (ui m') COMMODITIES ≠ inl TypeError.
Proof.
  intros ok m'.
  destruct (warm_up_fills_cache (fst mount) Global
              [ok; inl (mkError None); ok; ok; ok])
    as (Hrun & _ & Hentries & _); [discriminate|reflexivity| |..].
  - intros k data Hk. simpl in Hk. by rewrite lookup_empty in Hk.
  - repeat constructor; intros c ctx data Hr; try discriminate Hr;
      injection Hr as <-; reflexivity.
  - split; [|split].
    + exact (f_equal (fmap (horizon_score "current"))
               (Hentries 2 "Maize" ok eq_refl eq_refl)).
    + apply (Hentries 1 "Cashew" (inl (mkError None))); reflexivity.
    + apply (Hrun 6).
Defined.

End WarmUpCache.
